(* ===== verification/_CoqProject ===== *)
-Q . S2P
Prelude.v
JsString.v
JsValue.v
Normalize.v
Async.v
FormUrl.v
FormParse.v
Server.v
Process.v
Api.v
