(* ===== verification/Prelude.v ===== *)
(** * A verification development of the esv-proxy relay (src/server.js)

    The program is a single Express application (src/server.js, 71 lines)
    that relays Bible-passage lookups to the ESV text API, adding the
    server-side credential.  Its parts, in the order a request meets them:

    - startup (lines 15-19, 69-72): reads ESV_API_KEY and PORT from the
      environment and refuses to start without a key;
    - the CORS middleware (lines 6-12): sets three headers on every
      response and answers every OPTIONS request with 204;
    - normalizeReference (lines 21-26): String(ref || empty), trim, the dash
      regex /[–—]/g and the whitespace regex /\s+/g;
    - esvGet (lines 28-40): one fetch with the "Token <key>" header, the
      body parsed as JSON with parse failures swallowed into {}, a non-ok
      status turned into an Error whose message is data?.detail or
      "HTTP <status>";
    - the /healthz route (line 42) and the /passage route (lines 44-67):
      the empty-query guard, the URLSearchParams of the outbound call,
      the join of payload.passages and the try/catch that maps every
      failure to a 500 with String(e.message || e).

    ** Files of the development

    - [Prelude] (this file): the JavaScript string type [jstr] (a list of
      UTF-16 code units as [Z]), the literal notation [⟪"..."⟫], the
      separator join [sep_join], [drop_while], the Ltac and the [esv] hint
      database shared by the other files, the generic list lemmas, the
      bit-string lemmas (or of disjoint bits is addition, masks are
      remainders) and the tactics [zbool], [zhyps], [zsolve] that decide
      comparisons of linear integer terms.
    - [JsString]: the ECMAScript built-ins the source calls on strings:
      the WhiteSpace/LineTerminator set, String.prototype.trim, the two
      regular expressions of line 24-25 as a small regex AST with a greedy
      matcher, and String.prototype.replace with a global regex (a fuelled
      scan, with the lemma that fuel [length s] is enough).
    - [JsValue]: the JavaScript values the code handles (JSON.parse results
      and Express query values), truthiness, String(v) with
      Array.prototype.join as a computation that may throw (an object
      with its own "toString" makes ToPrimitive throw a TypeError), new
      Error(m), property reads, and Error objects with
      Error.prototype.toString.
    - [Normalize]: normalizeReference and its specification: the result
      is the words of the input (maximal runs of non-whitespace, dashes
      turned into hyphens) joined by single spaces; idempotence, absence of
      dashes and of leading, trailing or repeated whitespace follow.
    - [Async]: the one suspension point of a request: a program that
      finishes, throws, or awaits one fetch and continues; try/catch; the
      run of a program against an upstream server, with its trace of
      outbound requests; observational equivalence of programs, with the
      monad laws and the Proper instances of bind and catch.
    - [FormUrl]: URLSearchParams.toString (UTF-16 to scalar values, UTF-8,
      the application/x-www-form-urlencoded byte serializer) and the
      outbound URL of /passage.
    - [FormParse]: the receiving side of that URL, as the WHATWG URL and
      Encoding standards define it (the urlencoded parser, percent-decoding
      and the UTF-8 decoder as its byte-by-byte state machine); library
      behaviour, used as the reference the serializer must invert.
    - [Server]: the response object, esvGet, the route handlers, the CORS
      middleware, Express dispatch and startup, with the end-to-end
      theorems.
    - [Process]: the module's top level (lines 3-72) run in source order
      ([module_init]: app.use, the key check with exit(1), the two app.get
      registrations, PORT, app.listen as the listening state holding the
      router stack), Express's router walking that stack ([dispatch]) and
      the request listener ([handle]); the lines the top level logs (the
      missing-key message on stderr, the port on stdout).
    - [Api]: JSON types, the typing judgment [has_type] with the checker
      [type_check] that decides it (a [Decision] instance), and the typing
      [resp_typed] of whole responses by the API's schema.

    ** What the theorems show

    - Normalizer ([Normalize], [JsString]): the result of
      normalizeReference is the words of String(ref || empty) (maximal runs
      of non-whitespace, U+2013 and U+2014 turned into hyphens) joined by
      single spaces; hence it is idempotent, has no dash, no leading,
      trailing or repeated whitespace; it throws exactly what String()
      throws; the two regex replaces equal a map and a one-pass collapse
      (equivalence).
    - Fetcher and /passage ([Server]): every branch of the handler, as the
      response and the trace of outbound requests: blank query (400, no
      outbound call), upstream success (200 {query,text}), upstream
      failure (500 with detail or "HTTP <status>"), rejected fetch,
      malformed JSON, null payloads and non-array passages (500
      TypeError), a query value or an upstream detail on which String()
      throws (500 with the ToPrimitive TypeError); a 500 never carries an
      empty message; the key reaches only the Authorization header
      (non-interference); the handler refines the abstract contract
      [Server.PassageSpec]; the async model is computed by a direct-style
      reference ([Server.app_run]), which the proofs use.
    - App ([Server]): CORS headers on every response, the OPTIONS
      short-circuit, /healthz independent of the upstream, GET and HEAD
      routing with 404 elsewhere, startup refusing a missing key.
    - Outbound URL ([FormUrl]): the form encoder emits only unreserved
      bytes, '%' and '+', so no caller input adds a parameter; the URL
      carries q first and the six fixed options.
    - Round trips ([FormParse]): the ESV API, parsing the outbound URL,
      reads q as the normalized reference (as scalar values) and the six
      flags unchanged, by lemmas that the urlencoded parser inverts the
      serializer and the UTF-8 decoder the encoder.
    - Process ([Process]): the log never depends on the API key; lemmas
      relate the top level to [Server.startup] and its router stack to
      [Server.app].
    - Types ([Api]): every response is typed by the API's schema: 200
      {query, text} strings or 400/500 {error} string, "ok", empty bodies
      for OPTIONS and HEAD, the 404 page.

    ** Choices

    Strings are lists of UTF-16 code units because JavaScript strings are;
    the regexes have no u flag and so work on code units.  Numbers parsed
    from JSON are carried as their JavaScript ToString (the only thing the
    code observes of them besides truthiness).  JSON.parse, the query
    string parser of Express and the transport are library code: a body is
    given as its parse result (None when JSON.parse rejects), a query
    value as the value Express hands to the handler.  The regex replace is
    a fuelled scan; [RegexFacts.replace_global_stable] shows fuel
    [length s] is never exhausted, so [normalizeReference] passes exactly
    that.  ToString of an object follows ToPrimitive with hint string: a
    JSON object with its own "toString" (not callable) throws a
    TypeError, any other prints "[object Object]"; the values the model
    admits for req.query.q are all JSON-like values, a superset of what
    Express's query parsers produce.

    Not modelled: the binding of the port by
    app.listen (I/O; the listening process is a state of [Process.proc]),
    the headers Express adds by itself (Content-Type, ETag,
    X-Powered-By), the text of the HTML page of Express's default 404,
    JSON.parse and the query-string parser of Express (library code, whose
    results are inputs of the model), and the transport of fetch.
*)

From stdpp Require Export base list.
From Stdlib Require Export ZArith Lia.
From Stdlib Require Ascii String.
Export String.StringSyntax.

(** ** JavaScript strings *)

(** A JavaScript string is a sequence of UTF-16 code units. *)
Abbreviation jstr := (list Z).

(** The code units of an ASCII literal. *)
Definition js (s : String.string) : jstr :=
  map (fun a => Z.of_nat (Ascii.nat_of_ascii a)) (String.list_ascii_of_string s).

Declare Scope esv_scope.
Delimit Scope esv_scope with esv.
Arguments js s%_string_scope : simpl never.
Notation "⟪ s ⟫" := (js s) (format "⟪ s ⟫") : esv_scope.
Open Scope esv_scope.

(** [sep_join sep ws]: the strings [ws] with [sep] between neighbours, as
    Array.prototype.join does once its elements are strings. *)
Fixpoint sep_join {A} (sep : list A) (ws : list (list A)) : list A :=
  match ws with
  | [] => []
  | [w] => w
  | w :: ws' => w ++ sep ++ sep_join sep ws'
  end.

Fixpoint drop_while {A} (p : A -> bool) (l : list A) : list A :=
  match l with
  | [] => []
  | x :: l' => if p x then drop_while p l' else l
  end.

Fixpoint take_while {A} (p : A -> bool) (l : list A) : list A :=
  match l with
  | [] => []
  | x :: l' => if p x then x :: take_while p l' else []
  end.

(** [all p l] and [head_is p l]: boolean tests used by the invariants. *)
Definition all {A} (p : A -> bool) (l : list A) : bool := forallb p l.

Definition head_is {A} (p : A -> bool) (l : list A) : bool :=
  match l with [] => false | x :: _ => p x end.

Definition last_is {A} (p : A -> bool) (l : list A) : bool :=
  head_is p (rev l).

(** [map_err f l]: [f] on each element in order, stopping at the first
    error, as a loop whose body may throw. *)
Fixpoint map_err {E A B} (f : A -> E + B) (l : list A) : E + list B :=
  match l with
  | [] => inr []
  | x :: l' =>
      match f x with
      | inl e => inl e
      | inr y => match map_err f l' with inl e => inl e | inr ys => inr (y :: ys) end
      end
  end.

(** ** Automation *)

Create HintDb esv discriminated.
Create Rewrite HintDb esv_rw.

(** Case on the boolean tests of the goal, simplifying as we go. *)
Ltac bool_cases :=
  repeat match goal with
  | |- context [if ?b then _ else _] =>
      lazymatch b with
      | true => fail
      | false => fail
      | _ => let E := fresh "E" in destruct b eqn:E
      end
  end; simpl in *; try congruence.

Ltac esv_simpl := simpl in *; autorewrite with esv_rw in *; try congruence.

(** ** Generic lemmas on lists *)

Section ListFacts.
Context {A : Type}.
Implicit Types (p : A -> bool) (l : list A).

Lemma take_drop_while p l : take_while p l ++ drop_while p l = l.
Proof. induction l as [|x l IH]; simpl; [done|]. destruct (p x); simpl; congruence. Qed.

Lemma drop_while_head p l : head_is p (drop_while p l) = false.
Proof. induction l as [|x l IH]; simpl; [done|]. destruct (p x) eqn:E; simpl; auto. Qed.

Lemma take_while_all p l : all p (take_while p l) = true.
Proof. induction l as [|x l IH]; simpl; [done|]. destruct (p x) eqn:E; simpl; rewrite ?E; auto. Qed.

Lemma drop_while_all p l : all p l = true -> drop_while p l = [].
Proof.
  induction l as [|x l IH]; simpl; [done|].
  intros [-> Hl]%andb_prop. auto.
Qed.

Lemma drop_while_app_all p l1 l2 :
  all p l1 = true -> drop_while p (l1 ++ l2) = drop_while p l2.
Proof.
  induction l1 as [|x l1 IH]; simpl; [done|].
  intros [-> Hl]%andb_prop. auto.
Qed.

Lemma drop_while_idem p l : drop_while p (drop_while p l) = drop_while p l.
Proof. induction l as [|x l IH]; simpl; [done|]. destruct (p x) eqn:E; simpl; rewrite ?E; auto. Qed.

Lemma drop_while_length p l : length (drop_while p l) <= length l.
Proof. induction l as [|x l IH]; simpl; [lia|]. destruct (p x); simpl; lia. Qed.

Lemma drop_while_snoc p l x :
  p x = false -> drop_while p (l ++ [x]) = drop_while p l ++ [x].
Proof. intros Hx. induction l as [|y l IH]; simpl; [by rewrite Hx|]. by destruct (p y). Qed.

(** Dropping from the right keeps a head that [p] rejects. *)
Lemma head_rev_drop_while p l :
  head_is p l = false -> head_is p (rev (drop_while p (rev l))) = false.
Proof.
  destruct l as [|x l]; simpl; [done|]. intros Hx.
  rewrite drop_while_snoc, rev_app_distr by done. done.
Qed.

Lemma rev_nil_inv l : rev l = [] -> l = [].
Proof. intros H. apply length_zero_iff_nil. rewrite <- length_rev, H. done. Qed.

Lemma last_is_app p l1 l2 : l2 <> [] -> last_is p (l1 ++ l2) = last_is p l2.
Proof.
  intros H. unfold last_is. rewrite rev_app_distr.
  destruct (rev l2) eqn:E; [by apply rev_nil_inv in E|done].
Qed.

Lemma all_app p l1 l2 : all p (l1 ++ l2) = all p l1 && all p l2.
Proof. apply forallb_app. Qed.

Lemma all_rev p l : all p (rev l) = all p l.
Proof.
  induction l as [|x l IH]; simpl; [done|].
  rewrite all_app, IH. simpl. rewrite andb_true_r. apply andb_comm.
Qed.

Lemma all_cons p x l : all p (x :: l) = p x && all p l.
Proof. done. Qed.

Lemma sep_join_cons2 (sep w w' : list A) ws :
  sep_join sep (w :: w' :: ws) = w ++ sep ++ sep_join sep (w' :: ws).
Proof. done. Qed.
End ListFacts.

#[export] Hint Rewrite @all_app @all_rev @all_cons @drop_while_idem : esv_rw.
#[export] Hint Resolve take_while_all drop_while_head : esv.

(** An error of [map_err] is the error of one of the elements. *)
Lemma map_err_inl {E A B} (f : A -> E + B) l e :
  map_err f l = inl e -> exists x, x ∈ l /\ f x = inl e.
Proof.
  induction l as [|x l IH]; simpl; [done|].
  destruct (f x) eqn:Ef; [intros [= <-]; exists x; split; [left|done]|].
  destruct (map_err f l); [|done]. intros H. destruct (IH H) as (y & ? & ?).
  exists y. split; [by right|done].
Qed.

(** The code-unit view of literals computes. *)
Lemma js_app (s1 s2 : String.string) : js (String.append s1 s2) = js s1 ++ js s2.
Proof. induction s1 as [|a s1 IH]; simpl; [done|]. unfold js in *. simpl. by rewrite IH. Qed.

(** ** Integers as bit strings *)

Section BitFacts.
Local Open Scope Z_scope.

(** Or-ing a value below [2^k] into a multiple of [2^k] adds it. *)
Lemma lor_low_add h y k :
  0 <= k -> h mod 2 ^ k = 0 -> 0 <= y < 2 ^ k -> Z.lor h y = h + y.
Proof.
  intros Hk Hh Hy. rewrite <- (Z.add_lor_land h y).
  enough (Z.land h y = 0) by lia.
  apply Z.bits_inj'. intros n Hn. rewrite Z.land_spec, Z.bits_0.
  destruct (Z.lt_ge_cases n k).
  - rewrite <- (Z.mod_pow2_bits_low h k n) by lia. by rewrite Hh, Z.bits_0.
  - rewrite <- (Z.mod_small y (2 ^ k)) by lia.
    rewrite Z.mod_pow2_bits_high by lia. apply andb_false_r.
Qed.

(** Masking the low [k] bits of a multiple of [2^k] plus a small value
    gives the value. *)
Lemma land_ones_add h a k :
  0 <= k -> h mod 2 ^ k = 0 -> 0 <= a < 2 ^ k -> Z.land (h + a) (Z.ones k) = a.
Proof.
  intros Hk Hh Ha. rewrite Z.land_ones by done.
  rewrite Z.add_mod, Hh by lia. rewrite (Z.mod_small a) by lia. by apply Z.mod_small.
Qed.

Lemma shiftl_or_add x y k :
  0 <= k -> 0 <= y < 2 ^ k -> Z.lor (Z.shiftl x k) y = x * 2 ^ k + y.
Proof.
  intros Hk Hy. rewrite Z.shiftl_mul_pow2 by done. apply (lor_low_add _ _ k); [done| |done].
  apply Z.mod_mul. apply Z.pow_nonzero; lia.
Qed.

(** Division with remainder by a positive constant, as linear facts. *)
Lemma div_mod_linear x m : 0 < m -> x = m * (x / m) + x mod m /\ 0 <= x mod m < m.
Proof. intros Hm. split; [by apply Z.div_mod; lia | by apply Z.mod_pos_bound]. Qed.
End BitFacts.

(** Decide the comparisons of a goal between linear terms by [lia]. *)
Ltac zbool :=
  repeat match goal with
  | |- context [(?x <=? ?y)%Z] =>
      first [rewrite (proj2 (Z.leb_le x y)) by lia | rewrite (proj2 (Z.leb_gt x y)) by lia]
  | |- context [(?x <? ?y)%Z] =>
      first [rewrite (proj2 (Z.ltb_lt x y)) by lia | rewrite (proj2 (Z.ltb_ge x y)) by lia]
  | |- context [(?x =? ?y)%Z] =>
      first [rewrite (proj2 (Z.eqb_eq x y)) by lia | rewrite (proj2 (Z.eqb_neq x y)) by lia]
  end; cbn [andb orb negb].

(** Turn boolean comparisons in the hypotheses into linear facts. *)
Ltac zhyps :=
  repeat match goal with
  | H : (_ && _) = true |- _ => apply andb_prop in H as [? ?]
  | H : (_ && _) = false |- _ => apply andb_false_iff in H
  | H : (_ || _) = true |- _ => apply orb_true_iff in H
  | H : (_ || _) = false |- _ => apply orb_false_iff in H as [? ?]
  | H : negb _ = true |- _ => apply negb_true_iff in H
  | H : negb _ = false |- _ => apply negb_false_iff in H
  | H : _ = true \/ _ = true |- _ => destruct H as [H|H]
  | H : _ = false \/ _ = false |- _ => destruct H as [H|H]
  | H : (_ <=? _)%Z = true |- _ => apply Z.leb_le in H
  | H : (_ <=? _)%Z = false |- _ => apply Z.leb_gt in H
  | H : (_ <? _)%Z = true |- _ => apply Z.ltb_lt in H
  | H : (_ <? _)%Z = false |- _ => apply Z.ltb_ge in H
  | H : (_ =? _)%Z = true |- _ => apply Z.eqb_eq in H
  | H : (_ =? _)%Z = false |- _ => apply Z.eqb_neq in H
  end.

(** Close a goal of boolean comparisons under linear hypotheses. *)
Ltac zsolve := zhyps; zbool; first [done | exfalso; lia].
