(* ===== verification/JsString.v ===== *)
(** * JsString: the ECMAScript string built-ins used by src/server.js

    normalizeReference (src/server.js:21-26) calls String.prototype.trim
    and String.prototype.replace with two global regular expressions,
    /[–—]/g and /\s+/g; the response text of /passage (line 61) is
    trimmed too, and the error of esvGet (line 37) prints the HTTP status
    in decimal.  This file gives those built-ins on [jstr] (UTF-16 code
    units): the WhiteSpace and LineTerminator set of ECMA-262, trim, a
    regex AST covering the two patterns with a greedy matcher, the global
    replace as a fuelled scan, and Number::toString on integers. *)

From S2P Require Import Prelude.
From Stdlib Require Import DecimalString.

Open Scope Z_scope.

(** ** The \s class and trim *)

(** ECMA-262 WhiteSpace (TAB, VT, FF, SP, NBSP, ZWNBSP and the Zs
    category) and LineTerminator (LF, CR, LS, PS): the set that both
    String.prototype.trim and the regex escape \s remove or match. *)
Definition is_ws (c : Z) : bool :=
  (c =? 0x09) || (c =? 0x0A) || (c =? 0x0B) || (c =? 0x0C) || (c =? 0x0D)
  || (c =? 0x20) || (c =? 0xA0) || (c =? 0x1680)
  || ((0x2000 <=? c) && (c <=? 0x200A))
  || (c =? 0x2028) || (c =? 0x2029) || (c =? 0x202F) || (c =? 0x205F)
  || (c =? 0x3000) || (c =? 0xFEFF).

(** String.prototype.trim: TrimString(S, start+end). *)
Definition trim (s : jstr) : jstr :=
  rev (drop_while is_ws (rev (drop_while is_ws s))).

(** ** The regular expressions of lines 24-25 *)

Module Regex.

(** The character classes the source writes: [[–—]] (U+2013, U+2014)
    and [\s]. *)
Inductive char_class := CDash | CSpace.

Definition class_mem (k : char_class) (c : Z) : bool :=
  match k with
  | CDash => (c =? 0x2013) || (c =? 0x2014)
  | CSpace => is_ws c
  end.

(** An atom, or an atom under the greedy [+] quantifier. *)
Inductive regex := RClass (k : char_class) | RPlus (k : char_class).

(** The match of [r] at the start of [s], as the rest of [s] after the
    match.  [+] is greedy and nothing follows it in the pattern, so the
    first alternative the backtracking matcher accepts is the longest
    run. *)
Definition match_prefix (r : regex) (s : jstr) : option jstr :=
  match r, s with
  | _, [] => None
  | RClass k, c :: s' => if class_mem k c then Some s' else None
  | RPlus k, c :: s' =>
      if class_mem k c then Some (drop_while (class_mem k) s') else None
  end.

(** String.prototype.replace(r, rep) with a global [r] and a
    replacement without $-patterns: scan from the left, replace each
    match by [rep] and resume after it, copy the other code units.
    Neither pattern matches the empty string, so every step consumes
    input; [fuel] bounds the steps. *)
Fixpoint replace_global (fuel : nat) (r : regex) (rep s : jstr) : jstr :=
  match fuel with
  | O => s
  | S fuel' =>
      match s with
      | [] => []
      | c :: s' =>
          match match_prefix r s with
          | Some rest => rep ++ replace_global fuel' r rep rest
          | None => c :: replace_global fuel' r rep s'
          end
      end
  end.

Definition replace_all (r : regex) (rep s : jstr) : jstr :=
  replace_global (length s) r rep s.

(** The two calls of normalizeReference. *)
Definition dash_re : regex := RClass CDash.
Definition ws_re : regex := RPlus CSpace.

(** Reference definitions: what the two replaces compute. *)
Definition hyphenate (c : Z) : Z := if class_mem CDash c then 0x2D else c.

(** One pass with a flag "inside a whitespace run". *)
Fixpoint collapse_ws (in_run : bool) (s : jstr) : jstr :=
  match s with
  | [] => []
  | c :: s' =>
      if is_ws c then
        if in_run then collapse_ws true s' else 0x20 :: collapse_ws true s'
      else c :: collapse_ws false s'
  end.

End Regex.

(** ** Number::toString on integers (the status in `HTTP ${res.status}`) *)

Definition z_to_dec (n : Z) : jstr := js (NilZero.string_of_int (Z.to_int n)).

(** ** Lemmas *)

Lemma is_ws_space : is_ws 0x20 = true.
Proof. reflexivity. Qed.

Module RegexFacts.
Import Regex.

Lemma hyphenate_ws c : is_ws (hyphenate c) = is_ws c.
Proof. unfold hyphenate, class_mem. destruct ((c =? 0x2013) || (c =? 0x2014)) eqn:E; [|done].
  apply orb_true_iff in E as [->%Z.eqb_eq | ->%Z.eqb_eq]; reflexivity. Qed.

Lemma hyphenate_not_dash c : class_mem CDash (hyphenate c) = false.
Proof. unfold hyphenate. destruct (class_mem CDash c) eqn:E; [done|exact E]. Qed.

Lemma hyphenate_idem c : hyphenate (hyphenate c) = hyphenate c.
Proof. unfold hyphenate at 1. by rewrite hyphenate_not_dash. Qed.

Lemma match_prefix_shorter r s rest :
  match_prefix r s = Some rest -> (length rest < length s)%nat.
Proof.
  destruct r as [k|k], s as [|c s']; simpl; try done;
    destruct (class_mem k c); intros; simplify_eq; simpl;
    [lia | pose proof (drop_while_length (class_mem k) s'); lia].
Qed.

(** Any fuel above the length gives the same result. *)
Lemma replace_global_stable r rep f1 f2 s :
  (length s <= f1)%nat -> (length s <= f2)%nat ->
  replace_global f1 r rep s = replace_global f2 r rep s.
Proof.
  revert f2 s. induction f1 as [|f1 IH]; intros f2 s H1 H2.
  - destruct s; [destruct f2|]; simpl in *; done || lia.
  - destruct s as [|c s']; [by destruct f2|].
    destruct f2 as [|f2]; [simpl in H2; lia|]. simpl.
    destruct (match_prefix r (c :: s')) as [rest|] eqn:M.
    + apply match_prefix_shorter in M. simpl in *. f_equal. apply IH; lia.
    + simpl in *. f_equal. apply IH; lia.
Qed.

Lemma collapse_true_drop s : collapse_ws true s = collapse_ws false (drop_while is_ws s).
Proof. induction s as [|c s IH]; simpl; [done|]. destruct (is_ws c) eqn:E; simpl; rewrite ?E; done. Qed.

Lemma replace_dash_fuel f s :
  (length s <= f)%nat -> replace_global f dash_re [0x2D] s = map hyphenate s.
Proof.
  revert s. induction f as [|f IH]; intros [|c s] H; simpl in *; try done || lia.
  unfold hyphenate. simpl. destruct (_ || _); simpl; f_equal; apply IH; lia.
Qed.

Lemma replace_ws_fuel f s :
  (length s <= f)%nat -> replace_global f ws_re [0x20] s = collapse_ws false s.
Proof.
  revert s. induction f as [|f IH]; intros [|c s] H; simpl in *; try done || lia.
  destruct (is_ws c); simpl; f_equal.
  - rewrite collapse_true_drop. apply IH. pose proof (drop_while_length is_ws s). lia.
  - apply IH; lia.
Qed.
End RegexFacts.

(** ** Trim *)

Module TrimFacts.

Lemma drop_while_map (p : Z -> bool) f l :
  (forall c, p (f c) = p c) -> drop_while p (map f l) = map f (drop_while p l).
Proof. intros Hp. induction l as [|c l IH]; simpl; [done|]. rewrite Hp. by destruct (p c). Qed.

(** [trim s] sits between two whitespace runs of [s]. *)
Lemma trim_decompose s :
  exists lead trail, s = lead ++ trim s ++ trail
    /\ all is_ws lead = true /\ all is_ws trail = true.
Proof.
  unfold trim. set (m := drop_while is_ws s).
  exists (take_while is_ws s), (rev (take_while is_ws (rev m))).
  split; [|split; [apply take_while_all|rewrite all_rev; apply take_while_all]].
  rewrite <- (take_drop_while is_ws s) at 1. fold m. f_equal.
  rewrite <- rev_app_distr, take_drop_while. by rewrite rev_involutive.
Qed.

Lemma trim_head s : head_is is_ws (trim s) = false.
Proof. unfold trim. apply head_rev_drop_while, drop_while_head. Qed.

Lemma trim_last s : last_is is_ws (trim s) = false.
Proof. unfold last_is, trim. rewrite rev_involutive. apply drop_while_head. Qed.

Lemma trim_map_hyphenate s :
  trim (map Regex.hyphenate s) = map Regex.hyphenate (trim s).
Proof.
  unfold trim. rewrite drop_while_map by apply RegexFacts.hyphenate_ws.
  rewrite <- map_rev, drop_while_map by apply RegexFacts.hyphenate_ws.
  by rewrite map_rev.
Qed.
End TrimFacts.

(** ** Properties of the built-ins *)

Import Regex.

(** C32: The dash replace of line 24, s.replace(/[–—]/g, "-"), maps every
    U+2013 and U+2014 code unit to a hyphen and keeps the others. *)
Theorem replace_dash_map s : replace_all dash_re ⟪"-"⟫ s = map hyphenate s.
Proof. apply RegexFacts.replace_dash_fuel. lia. Qed.

(** C31: The whitespace replace of line 25, s.replace(/\s+/g, " "),
    computes the one-pass collapse: each maximal run of \s becomes one
    space. *)
Theorem replace_ws_collapse s : replace_all ws_re ⟪" "⟫ s = collapse_ws false s.
Proof. apply RegexFacts.replace_ws_fuel. lia. Qed.

