(* ===== verification/JsValue.v ===== *)
(** * JsValue: the JavaScript values that src/server.js handles

    Two kinds of values reach the code: the query value req.query.q that
    Express hands to the /passage handler (line 46), and the result of
    res.json() on the upstream body (line 35).  Both are JSON-like values
    plus undefined.  This file gives them as [jsval], with the operations
    the code applies: truthiness (the || of lines 22, 37, 61, 65),
    String(v) (lines 22, 37, 65) with Array.prototype.join (line 61),
    both fallible (ToPrimitive throws a TypeError on an object with its
    own "toString", which JSON.parse can produce), the
    property reads data?.detail and payload.passages (lines 37, 61), and
    Error objects with new Error(m) and Error.prototype.toString. *)

From S2P Require Import Prelude JsString.

Open Scope Z_scope.
Local Set Warnings "-register-all".

(** A number is carried as its ToString (JSON numbers are finite; -0
    prints as "0"); an object as its own properties in order, as
    JSON.parse creates them. *)
Inductive jsval :=
| JUndefined
| JNull
| JBool (b : bool)
| JNum (repr : jstr)
| JStr (s : jstr)
| JArr (items : list jsval)
| JObj (fields : list (jstr * jsval)).

(** ToBoolean. *)
Definition truthy (v : jsval) : bool :=
  match v with
  | JUndefined | JNull => false
  | JBool b => b
  | JNum r => negb (bool_decide (r = ⟪"0"⟫) || bool_decide (r = ⟪"NaN"⟫))
  | JStr s => negb (bool_decide (s = []))
  | JArr _ | JObj _ => true
  end.

(** [a || b]. *)
Definition js_or (a b : jsval) : jsval := if truthy a then a else b.

(** ** Error objects *)

Record js_error := mk_error { err_name : jstr; err_message : jstr }.

Definition type_error (msg : jstr) : js_error := mk_error ⟪"TypeError"⟫ msg.

(** V8's TypeError of OrdinaryToPrimitive when neither toString nor
    valueOf gives a primitive. *)
Definition to_primitive_error : js_error :=
  type_error ⟪"Cannot convert object to primitive value"⟫.

(** Whether an object has an own property [k]. *)
Definition has_field (k : jstr) (fs : list (jstr * jsval)) : bool :=
  existsb (fun kv => bool_decide (kv.1 = k)) fs.

(** String(v): ToString, which may throw.  An array prints through
    Array.prototype.join(",") (undefined and null elements print as the
    empty string, the others through ToString, whose errors propagate).
    An object prints through ToPrimitive with hint string: when it has no
    own "toString", Object.prototype.toString gives "[object Object]";
    an own "toString" of a JSON value is not callable, and valueOf (its
    own, equally not callable, or Object.prototype.valueOf, which returns
    the object) gives no primitive, so ToPrimitive throws a TypeError. *)
Fixpoint to_string (v : jsval) : js_error + jstr :=
  match v with
  | JUndefined => inr ⟪"undefined"⟫
  | JNull => inr ⟪"null"⟫
  | JBool true => inr ⟪"true"⟫
  | JBool false => inr ⟪"false"⟫
  | JNum r => inr r
  | JStr s => inr s
  | JArr items =>
      match map_err (fun x => match x with JUndefined | JNull => inr [] | _ => to_string x end)
                    items with
      | inl e => inl e
      | inr ss => inr (sep_join ⟪","⟫ ss)
      end
  | JObj fs => if has_field ⟪"toString"⟫ fs then inl to_primitive_error else inr ⟪"[object Object]"⟫
  end.

(** The string an element contributes to Array.prototype.join. *)
Definition elem_string (x : jsval) : js_error + jstr :=
  match x with JUndefined | JNull => inr [] | _ => to_string x end.

(** Array.prototype.join(sep) on the items of an array. *)
Definition array_join (sep : jstr) (items : list jsval) : js_error + jstr :=
  match map_err elem_string items with
  | inl e => inl e
  | inr ss => inr (sep_join sep ss)
  end.

(** ToString of a primitive (a string of process.env, the number 3000),
    which cannot throw; used for the template literals of lines 31 and
    71. *)
Definition prim_string (v : jsval) : jstr :=
  match to_string v with inr s => s | inl _ => [] end.

(** new Error(m) with m not undefined: the message is ToString(m), whose
    TypeError is thrown instead of the new error. *)
Definition new_error (m : jsval) : js_error + js_error :=
  match to_string m with
  | inl e => inl e
  | inr s => inr (mk_error ⟪"Error"⟫ s)
  end.

(** Error.prototype.toString. *)
Definition error_to_string (e : js_error) : jstr :=
  if bool_decide (err_name e = []) then err_message e
  else if bool_decide (err_message e = []) then err_name e
  else err_name e ++ ⟪": "⟫ ++ err_message e.

(** ** Property reads *)

(** An own property of an object; JSON.parse keeps the last of
    duplicate keys. *)
Definition lookup_field (k : jstr) (fs : list (jstr * jsval)) : jsval :=
  fold_left (fun acc kv => if bool_decide (kv.1 = k) then kv.2 else acc) fs JUndefined.

(** [v.k].  Reading a property of undefined or null throws V8's
    TypeError.  Of the other values only objects have own properties;
    the keys the code reads ("detail", "passages") are not properties of
    strings, numbers, booleans or arrays, nor of Object.prototype. *)
Definition read_prop (v : jsval) (k : jstr) : js_error + jsval :=
  match v with
  | JUndefined =>
      inl (type_error (⟪"Cannot read properties of undefined (reading '"⟫ ++ k ++ ⟪"')"⟫))
  | JNull =>
      inl (type_error (⟪"Cannot read properties of null (reading '"⟫ ++ k ++ ⟪"')"⟫))
  | JObj fs => inr (lookup_field k fs)
  | _ => inr JUndefined
  end.

(** [v?.k]: undefined on undefined and null, never throws. *)
Definition read_prop_opt (v : jsval) (k : jstr) : jsval :=
  match v with
  | JUndefined | JNull => JUndefined
  | JObj fs => lookup_field k fs
  | _ => JUndefined
  end.

(** ** Induction through arrays and objects

    The induction principle Rocq generates for [jsval] gives no
    hypothesis for the items of an array or the fields of an object;
    this one does. *)
Section JsvalInd.
Context (P : jsval -> Prop)
  (p_undef : P JUndefined) (p_null : P JNull) (p_bool : forall b, P (JBool b))
  (p_num : forall r, P (JNum r)) (p_str : forall s, P (JStr s))
  (p_arr : forall items, Forall P items -> P (JArr items))
  (p_obj : forall fields, Forall (fun f => P f.2) fields -> P (JObj fields)).

Fixpoint jsval_ind' (v : jsval) : P v :=
  match v with
  | JUndefined => p_undef
  | JNull => p_null
  | JBool b => p_bool b
  | JNum r => p_num r
  | JStr s => p_str s
  | JArr items =>
      p_arr items ((fix go (l : list jsval) : Forall P l :=
                      match l with
                      | [] => @List.Forall_nil _ P
                      | x :: l' => @List.Forall_cons _ P x l' (jsval_ind' x) (go l')
                      end) items)
  | JObj fields =>
      p_obj fields ((fix go (l : list (jstr * jsval)) : Forall (fun f => P f.2) l :=
                       match l with
                       | [] => @List.Forall_nil _ (fun f => P f.2)
                       | f :: l' => @List.Forall_cons _ (fun f => P f.2) f l' (jsval_ind' f.2) (go l')
                       end) fields)
  end.
End JsvalInd.

(** ** Lemmas *)

Lemma to_string_arr items : to_string (JArr items) = array_join ⟪","⟫ items.
Proof. reflexivity. Qed.

Lemma prim_string_str s : prim_string (JStr s) = s.
Proof. reflexivity. Qed.

Lemma js_or_truthy a b : truthy a = true -> js_or a b = a.
Proof. unfold js_or. by intros ->. Qed.

Lemma js_or_falsy a b : truthy a = false -> js_or a b = b.
Proof. unfold js_or. by intros ->. Qed.

Lemma truthy_str s : truthy (JStr s) = negb (bool_decide (s = [])).
Proof. reflexivity. Qed.

(** A string value, or its falsy replacement by the empty string, prints
    as itself. *)
Lemma to_string_or_empty s : to_string (js_or (JStr s) (JStr [])) = inr s.
Proof. unfold js_or. simpl. by case_bool_decide; subst. Qed.

Lemma read_prop_opt_spec v k :
  read_prop_opt v k = match read_prop v k with inl _ => JUndefined | inr x => x end.
Proof. by destruct v. Qed.

#[export] Hint Rewrite to_string_or_empty : esv_rw.

Lemma array_join_strings sep ss : array_join sep (map JStr ss) = inr (sep_join sep ss).
Proof.
  unfold array_join. replace (map_err elem_string (map JStr ss)) with (@inr js_error _ ss); [done|].
  induction ss as [|s ss IH]; simpl; [done|]. by rewrite <- IH.
Qed.

(** The only error ToString throws is the TypeError of ToPrimitive. *)
Lemma to_string_error v e : to_string v = inl e -> e = to_primitive_error.
Proof.
  induction v as [| | [] | | |items IH|fs _] using jsval_ind'; simpl; try done.
  - destruct (map_err _ items) as [e'|] eqn:Em; [|done]. intros [= <-].
    apply map_err_inl in Em as (x & Hx & Ex).
    rewrite Forall_forall in IH. specialize (IH x Hx). destruct x; try done; by apply IH.
  - by destruct (has_field _ _); [intros [= <-]|].
Qed.

Lemma array_join_error sep items e : array_join sep items = inl e -> e = to_primitive_error.
Proof.
  unfold array_join. destruct (map_err _ _) as [e'|] eqn:Em; [|done]. intros [= <-].
  apply map_err_inl in Em as (x & _ & Ex). destruct x; try done; by eapply to_string_error.
Qed.

(** new Error(m) throws the TypeError of ToPrimitive or builds an Error
    with the message ToString(m). *)
Lemma new_error_spec m :
  new_error m = match to_string m with inl _ => inl to_primitive_error | inr s => inr (mk_error ⟪"Error"⟫ s) end.
Proof.
  unfold new_error. destruct (to_string m) eqn:E; [|done]. by rewrite (to_string_error _ _ E).
Qed.

(** A named error prints as a non-empty string. *)
Lemma error_to_string_named e : err_name e <> [] -> error_to_string e <> [].
Proof.
  unfold error_to_string. intros Hn. case_bool_decide; [done|].
  case_bool_decide; [done|]. by destruct (err_name e).
Qed.
