(* ===== verification/Normalize.v ===== *)
(** * Normalize: normalizeReference (src/server.js:21-26)

    [normalizeReference] is the source's function, step by step:
    String(ref || empty), trim, the dash replace and the whitespace
    replace.  Its specification [normalize_spec] says what it computes:
    the words of the input (maximal runs of non-whitespace code units,
    with en and em dashes turned into hyphens) joined by single spaces,
    or the TypeError String() throws.  The other theorems follow from
    it. *)

From S2P Require Import Prelude JsString JsValue.

Open Scope Z_scope.
Import Regex.

(** ** The function of the source *)

(** String() may throw (an object with an own "toString", or an array
    holding one); the error propagates to the caller. *)
Definition normalizeReference (ref : jsval) : js_error + jstr :=
  match to_string (js_or ref (JStr [])) with
  | inl e => inl e
  | inr s =>
      let t := trim s in
      let u := replace_all dash_re ⟪"-"⟫ t in
      inr (replace_all ws_re ⟪" "⟫ u)
  end.

(** ** Specification: words joined by single spaces *)

Module Words.

Definition starts_word (s : jstr) : bool :=
  match s with c :: _ => negb (is_ws c) | [] => false end.

Definition glue (c : Z) (ws : list jstr) : list jstr :=
  match ws with w :: ws' => (c :: w) :: ws' | [] => [[c]] end.

(** The maximal runs of non-whitespace code units of [s], in order. *)
Fixpoint words (s : jstr) : list jstr :=
  match s with
  | [] => []
  | c :: s' =>
      if is_ws c then words s'
      else if starts_word s' then glue c (words s') else [c] :: words s'
  end.

(** A word: non-empty, without whitespace. *)
Definition is_word (w : jstr) : bool :=
  match w with [] => false | _ => all (fun c => negb (is_ws c)) w end.

End Words.

Import Words.

(** ** Lemmas on words *)

Module WordsFacts.

Lemma words_ws_prefix lead s : all is_ws lead = true -> words (lead ++ s) = words s.
Proof.
  induction lead as [|c lead IH]; simpl; [done|].
  intros [-> H]%andb_prop. auto.
Qed.

Lemma words_all_ws s : all is_ws s = true -> words s = [].
Proof. intros H. rewrite <- (app_nil_r s). rewrite words_ws_prefix by done. done. Qed.

Lemma words_ws_suffix s trail : all is_ws trail = true -> words (s ++ trail) = words s.
Proof.
  intros Ht. induction s as [|c s IH]; simpl; [by apply words_all_ws|].
  rewrite IH. destruct (is_ws c); [done|].
  destruct s as [|d s]; simpl; [|done].
  destruct trail as [|d t]; simpl in *; [done|].
  apply andb_prop in Ht as [-> _]. done.
Qed.

Lemma words_nil_all_ws s : words s = [] -> all is_ws s = true.
Proof.
  induction s as [|c s IH]; simpl; [done|].
  destruct (is_ws c); simpl; [auto|].
  destruct (starts_word s), (words s); simpl; discriminate.
Qed.

(** A string whose last code unit is not whitespace has a word. *)
Lemma words_last_nonempty s :
  last_is is_ws s = false -> s <> [] -> words s <> [].
Proof.
  intros Hl Hs Hw. apply words_nil_all_ws in Hw.
  rewrite <- all_rev in Hw. unfold last_is in Hl.
  destruct (rev s) as [|c r] eqn:E; [by apply Hs, rev_nil_inv|].
  simpl in *. apply andb_prop in Hw as [Hc _]. congruence.
Qed.

Lemma words_trim s : words (trim s) = words s.
Proof.
  destruct (TrimFacts.trim_decompose s) as (lead & trail & E & Hl & Ht).
  rewrite E at 2. rewrite words_ws_prefix, words_ws_suffix by done. done.
Qed.

Lemma last_is_cons (p : Z -> bool) c s : s <> [] -> last_is p (c :: s) = last_is p s.
Proof.
  intros Hs. unfold last_is. simpl.
  destruct (rev s) eqn:E; [by apply rev_nil_inv in E|done].
Qed.

Lemma sep_join_glue c w ws : sep_join [0x20] (glue c (w :: ws)) = c :: sep_join [0x20] (w :: ws).
Proof. by destruct ws. Qed.

(** The one-pass collapse on a string that does not end in whitespace
    is the join of its words, after one space for a leading run when
    the pass is not already in a run. *)
Lemma collapse_words b t :
  last_is is_ws t = false ->
  collapse_ws b t =
    (if head_is is_ws t && negb b then [0x20] else []) ++ sep_join [0x20] (words t).
Proof.
  revert b. induction t as [|c t IH]; intros b Hl; [done|].
  destruct (decide (t = [])) as [->|Ht].
  { unfold last_is in Hl. simpl in *. destruct (is_ws c); simpl in *; congruence. }
  rewrite last_is_cons in Hl by done.
  pose proof (words_last_nonempty t Hl Ht) as Hne.
  cbn [collapse_ws words head_is]. destruct (is_ws c) eqn:Ec; simpl.
  - rewrite (IH true Hl), andb_false_r. by destruct b.
  - rewrite (IH false Hl), andb_true_r.
    destruct t as [|d t']; [done|]. cbn [head_is starts_word].
    remember (words (d :: t')) as W eqn:HW. clear HW.
    destruct (is_ws d), W as [|w ws]; simpl; try done.
    symmetry. apply sep_join_glue.
Qed.

Lemma words_map_hyphenate s : words (map hyphenate s) = map (map hyphenate) (words s).
Proof.
  induction s as [|c s IH]; simpl; [done|].
  rewrite RegexFacts.hyphenate_ws, IH. destruct (is_ws c); [done|].
  assert (Hs : starts_word (map hyphenate s) = starts_word s)
    by (destruct s; simpl; [done|by rewrite RegexFacts.hyphenate_ws]).
  rewrite Hs. destruct (starts_word s); [|done]. by destruct (words s).
Qed.

(** Every element of [words s] is a word. *)
Lemma words_are_words s : Forall (fun w => is_word w = true) (words s).
Proof.
  induction s as [|c s IH]; simpl; [constructor|].
  destruct (is_ws c) eqn:Ec; [done|].
  assert (Hc : is_word [c] = true) by (simpl; rewrite Ec; done).
  destruct (starts_word s); [destruct (words s) as [|w ws]|]; simpl; auto.
  inversion IH as [|? ? Hw Hws]; subst. constructor; [|done].
  destruct w; [done|]. simpl in *. rewrite Ec. exact Hw.
Qed.

(** A word followed by a space and more text starts the word list. *)
Lemma words_word_space w rest :
  is_word w = true -> words (w ++ 0x20 :: rest) = w :: words rest.
Proof.
  unfold is_word. intros Hw.
  induction w as [|c w IH]; [done|].
  apply andb_prop in Hw as [Hc Hw]. apply negb_true_iff in Hc.
  cbn [app words]. rewrite Hc.
  destruct w as [|d w]; [by simpl|].
  pose proof Hw as Hd. apply andb_prop in Hd as [Hd _]. apply negb_true_iff in Hd.
  cbn [app starts_word]. rewrite Hd. simpl negb. cbv iota.
  change (d :: w ++ 0x20 :: rest) with ((d :: w) ++ 0x20 :: rest). rewrite IH by exact Hw. done.
Qed.

Lemma words_word w : is_word w = true -> words w = [w].
Proof.
  intros Hw. pose proof (words_word_space w [] Hw) as H.
  rewrite <- (words_ws_suffix w [0x20]) by done. rewrite H. done.
Qed.

(** [words] inverts the join of words. *)
Lemma words_sep_join ws :
  Forall (fun w => is_word w = true) ws -> words (sep_join [0x20] ws) = ws.
Proof.
  induction ws as [|w ws IH]; intros Hws; [done|].
  inversion Hws as [|? ? Hw Hrest]; subst.
  destruct ws as [|w' ws]; [by apply words_word|].
  rewrite sep_join_cons2. simpl. rewrite words_word_space by done. f_equal. auto.
Qed.

Lemma map_hyphenate_no_dash s :
  all (fun c => negb (class_mem CDash c)) s = true -> map hyphenate s = s.
Proof.
  induction s as [|c s IH]; [done|]. rewrite all_cons. intros [Hc Hs]%andb_prop.
  cbn [map]. rewrite IH by done. unfold hyphenate. by destruct (class_mem CDash c).
Qed.

Lemma no_dash_hyphenate s : all (fun c => negb (class_mem CDash c)) (map hyphenate s) = true.
Proof.
  induction s as [|c s IH]; [done|]. cbn [map]. rewrite all_cons.
  by rewrite RegexFacts.hyphenate_not_dash, IH.
Qed.

Lemma sep_join_map (f : Z -> Z) sep ws :
  map f (sep_join sep ws) = sep_join (map f sep) (map (map f) ws).
Proof.
  induction ws as [|w ws IH]; [done|]. destruct ws as [|w' ws]; [done|].
  rewrite sep_join_cons2, !map_app, IH. reflexivity.
Qed.
End WordsFacts.

(** ** The pipeline, stage by stage *)

Lemma normalize_pipeline ref :
  normalizeReference ref =
  match to_string (js_or ref (JStr [])) with
  | inl e => inl e
  | inr s => inr (collapse_ws false (trim (map hyphenate s)))
  end.
Proof.
  unfold normalizeReference, replace_all. destruct (to_string _) as [e|s]; [done|].
  rewrite RegexFacts.replace_ws_fuel, RegexFacts.replace_dash_fuel by (rewrite ?length_map; lia).
  by rewrite TrimFacts.trim_map_hyphenate.
Qed.

(** A string value normalizes without error. *)
Lemma normalize_str s :
  normalizeReference (JStr s) = inr (collapse_ws false (trim (map hyphenate s))).
Proof. by rewrite normalize_pipeline, to_string_or_empty. Qed.

(** The only error normalizeReference throws is String()'s TypeError. *)
Lemma normalize_error ref e : normalizeReference ref = inl e -> e = to_primitive_error.
Proof.
  unfold normalizeReference. destruct (to_string _) eqn:E; [|done].
  intros [= <-]. by eapply to_string_error.
Qed.

(** ** Shape of a join of words *)

Module Shape.
(** Every whitespace code unit is a space followed by no whitespace. *)
Fixpoint single_spaced (s : jstr) : bool :=
  match s with
  | [] => true
  | c :: s' =>
      (if is_ws c then (c =? 0x20) && negb (head_is is_ws s') else true)
      && single_spaced s'
  end.

Definition no_dash (s : jstr) : bool := all (fun c => negb (class_mem CDash c)) s.

Lemma single_spaced_word_app w r :
  all (fun c => negb (is_ws c)) w = true -> single_spaced (w ++ r) = single_spaced r.
Proof.
  induction w as [|c w IH]; [done|]. rewrite all_cons. intros [Hc Hw]%andb_prop.
  apply negb_true_iff in Hc. cbn [app single_spaced]. rewrite Hc. simpl. auto.
Qed.

Lemma word_all w : is_word w = true -> all (fun c => negb (is_ws c)) w = true.
Proof. by destruct w. Qed.

Lemma word_head w : is_word w = true -> head_is is_ws w = false.
Proof. destruct w as [|c w]; [done|]. simpl. by destruct (is_ws c). Qed.

Lemma word_last w : is_word w = true -> last_is is_ws w = false.
Proof.
  intros Hw. pose proof (word_all w Hw) as Ha. unfold last_is.
  rewrite <- all_rev in Ha. destruct w; [done|].
  destruct (rev (z :: w)) as [|c r]; [done|]. simpl in *. by destruct (is_ws c).
Qed.

Section Joined.
Context (W : list jstr) (HW : Forall (fun w => is_word w = true) W).

Lemma sep_join_head : head_is is_ws (sep_join [0x20] W) = false.
Proof.
  destruct HW as [|w W' Hw _]; [done|].
  destruct W'; simpl sep_join; [by apply word_head|].
  destruct w as [|c w]; [done|]. apply word_head in Hw. exact Hw.
Qed.

Lemma sep_join_last : last_is is_ws (sep_join [0x20] W) = false.
Proof.
  induction W as [|w W' IH]; [done|]. inversion HW as [|? ? Hw HW']; subst.
  destruct W' as [|w' W'']; [by apply word_last|].
  inversion HW' as [|? ? Hw' _]; subst.
  rewrite sep_join_cons2, app_assoc, last_is_app; [auto|].
  destruct w'; [done|]. destruct W''; done.
Qed.
End Joined.

Lemma sep_join_single_spaced W :
  Forall (fun w => is_word w = true) W -> single_spaced (sep_join [0x20] W) = true.
Proof.
  induction W as [|w W' IH]; intros HW; [done|]. inversion HW as [|? ? Hw HW']; subst.
  destruct W' as [|w' W''].
  - simpl sep_join. rewrite <- (app_nil_r w), single_spaced_word_app by (by apply word_all). done.
  - rewrite sep_join_cons2, single_spaced_word_app by (by apply word_all).
    cbn [app single_spaced]. simpl is_ws. rewrite IH, sep_join_head by done. done.
Qed.

Lemma sep_join_no_dash W :
  Forall (fun w => no_dash w = true) W -> no_dash (sep_join [0x20] W) = true.
Proof.
  unfold no_dash. induction 1 as [|w W' Hw HW IH]; [done|].
  destruct W'; simpl sep_join; [done|]. rewrite !all_app, Hw. simpl. exact IH.
Qed.
End Shape.

(** ** Properties of normalizeReference *)

Import Shape.

Lemma collapse_trim_words t : collapse_ws false (trim t) = sep_join [0x20] (words t).
Proof.
  rewrite WordsFacts.collapse_words by apply TrimFacts.trim_last.
  rewrite TrimFacts.trim_head, WordsFacts.words_trim. done.
Qed.

(** The output is a join of dash-free words. *)
Lemma normalized_form ref n :
  normalizeReference ref = inr n ->
  exists s, let W := words (map hyphenate s) in
    n = sep_join [0x20] W
    /\ Forall (fun w => is_word w = true) W /\ Forall (fun w => no_dash w = true) W.
Proof.
  rewrite normalize_pipeline. destruct (to_string _) as [e|s]; [done|]. intros [= <-].
  exists s. split; [apply collapse_trim_words|].
  split; [apply WordsFacts.words_are_words|].
  rewrite WordsFacts.words_map_hyphenate. apply Forall_map, Forall_true.
  intros w. apply WordsFacts.no_dash_hyphenate.
Qed.

(** C1: normalizeReference returns the words of String(ref || empty)
    (maximal runs of code units outside \s, with U+2013 and U+2014
    replaced by '-') joined by single spaces, and throws exactly what
    String() throws. *)
Theorem normalize_spec ref :
  normalizeReference ref =
  match to_string (js_or ref (JStr [])) with
  | inl e => inl e
  | inr s => inr (sep_join ⟪" "⟫ (words (map hyphenate s)))
  end.
Proof.
  rewrite normalize_pipeline. destruct (to_string _) as [e|s]; [done|].
  by rewrite collapse_trim_words.
Qed.

(** C10: normalizeReference is idempotent: normalizing a normalized
    reference gives it back. *)
Theorem normalize_idempotent ref n :
  normalizeReference ref = inr n -> normalizeReference (JStr n) = inr n.
Proof.
  intros Hn. destruct (normalized_form ref n Hn) as (s & En & Hw & Hd).
  rewrite normalize_str, collapse_trim_words. f_equal.
  rewrite En, WordsFacts.map_hyphenate_no_dash by (by apply sep_join_no_dash).
  by rewrite WordsFacts.words_sep_join.
Qed.

(** C27: The output has no leading or trailing whitespace, every
    whitespace code unit in it is a single space between two non-spaces,
    and it contains no en or em dash. *)
Theorem normalize_shape ref n :
  normalizeReference ref = inr n ->
  head_is is_ws n = false /\ last_is is_ws n = false
  /\ single_spaced n = true /\ no_dash n = true.
Proof.
  intros Hn. destruct (normalized_form ref n Hn) as (s & En & Hw & Hd). simpl in En. rewrite En.
  split; [by apply sep_join_head|]. split; [by apply sep_join_last|].
  split; [by apply sep_join_single_spaced|]. by apply sep_join_no_dash.
Qed.

(** C28: A falsy query value (absent, null, false, 0 or the empty
    string) normalizes to the empty string. *)
Theorem normalize_falsy ref : truthy ref = false -> normalizeReference ref = inr [].
Proof. intros H. rewrite normalize_pipeline, js_or_falsy by exact H. reflexivity. Qed.

(** C29: An en or em dash is normalized exactly like a hyphen in the same
    position. *)
Theorem normalize_dash_as_hyphen s :
  normalizeReference (JStr s) = normalizeReference (JStr (map hyphenate s)).
Proof.
  rewrite !normalize_str, map_map.
  by setoid_rewrite RegexFacts.hyphenate_idem.
Qed.

(** C30: A truthy query value that is not a string is not turned into the
    empty string: an array of strings (what Express gives for ?q=a&q=b)
    normalizes as its comma join, and an object (Express 4's extended
    query parser gives one for ?q[a]=b) as "[object Object]", unless it
    has an own "toString", when String() throws V8's TypeError. *)
Theorem normalize_non_string ss fs :
  normalizeReference (JArr (map JStr ss)) = normalizeReference (JStr (sep_join ⟪","⟫ ss))
  /\ normalizeReference (JObj fs)
     = if has_field ⟪"toString"⟫ fs then inl to_primitive_error else inr ⟪"[object Object]"⟫.
Proof.
  split.
  - rewrite normalize_pipeline, normalize_str. unfold js_or. cbn [truthy].
    rewrite to_string_arr, array_join_strings. reflexivity.
  - rewrite normalize_pipeline. unfold js_or. cbn [truthy to_string].
    destruct (has_field _ fs); [done|]. vm_compute. reflexivity.
Qed.

Lemma normalize_falsy_witness : normalizeReference (JBool false) = inr [].
Proof. apply normalize_falsy. reflexivity. Defined.

Lemma normalize_idempotent_witness :
  normalizeReference (JStr (⟪" John 3:16"⟫ ++ [0x2013] ++ ⟪"18 "⟫)) = inr ⟪"John 3:16-18"⟫
  /\ normalizeReference (JStr ⟪"John 3:16-18"⟫) = inr ⟪"John 3:16-18"⟫.
Proof.
  assert (H : normalizeReference (JStr (⟪" John 3:16"⟫ ++ [0x2013] ++ ⟪"18 "⟫)) = inr ⟪"John 3:16-18"⟫)
    by (vm_compute; reflexivity).
  split; [exact H|]. exact (normalize_idempotent _ _ H).
Defined.

Lemma normalize_shape_witness :
  let n := ⟪"John 3:16-18"⟫ in
  head_is is_ws n = false /\ last_is is_ws n = false
  /\ single_spaced n = true /\ no_dash n = true.
Proof.
  apply (normalize_shape (JStr (⟪" John   3:16"⟫ ++ [0x2014] ++ ⟪"18 "⟫))). vm_compute. reflexivity.
Defined.
