(* ===== verification/Async.v ===== *)
(** * Async: the one suspension point of a request

    The /passage handler is an async function (src/server.js:44-67) that
    awaits esvGet, which awaits fetch and res.json() (lines 28-40).  A
    request therefore runs as a program that finishes with a value,
    throws a JavaScript error, or awaits one outbound fetch and continues
    with what the fetch settles to.  [async] is that program type, with
    the monad structure of an async function body (stdpp's [MRet],
    [MBind], [MThrow]), try/catch as [catch], and [run], which plays a
    program against an upstream server and records every outbound
    request in order.  Two programs are equivalent when every upstream
    observes the same of them; the monad and try/catch laws hold up to
    that equivalence, and bind and catch respect it (Proper instances
    for setoid rewriting).

    Parse failures of res.json() are caught in esvGet itself (line 35);
    a fetch response is therefore given with its body's JSON.parse
    result, None when parsing (or reading the body) failed. *)

From stdpp Require Import base.
From S2P Require Import Prelude JsValue.

Open Scope Z_scope.

(** fetch(url, { headers: { Authorization } }). *)
Record fetch_request := mk_request { fr_url : jstr; fr_authorization : jstr }.

(** A settled Response: its status and the result of res.json(). *)
Record fetch_response := mk_fetch_response { resp_status : Z; resp_json : option jsval }.

Inductive fetch_outcome :=
| FetchRejected (e : js_error)       (** network failure: fetch rejects *)
| FetchResolved (r : fetch_response).

Inductive async (A : Type) : Type :=
| Done (a : A)
| Throw (e : js_error)
| Await (req : fetch_request) (k : fetch_outcome -> async A).

Arguments Done {A} a.
Arguments Throw {A} e.
Arguments Await {A} req k.

Fixpoint async_bind {A B} (f : A -> async B) (p : async A) : async B :=
  match p with
  | Done a => f a
  | Throw e => Throw e
  | Await r k => Await r (fun o => async_bind f (k o))
  end.

#[export] Instance async_ret : MRet async := @Done.
#[export] Instance async_mbind : MBind async := @async_bind.
#[export] Instance async_throw : MThrow js_error async := @Throw.
Arguments async_ret /.
Arguments async_mbind /.
Arguments async_throw /.

(** try { p } catch (e) { h(e) } *)
Fixpoint catch {A} (p : async A) (h : js_error -> async A) : async A :=
  match p with
  | Done a => Done a
  | Throw e => h e
  | Await r k => Await r (fun o => catch (k o) h)
  end.

(** await fetch(req): a rejection throws. *)
Definition fetch (req : fetch_request) : async fetch_response :=
  Await req (fun o => match o with
                      | FetchRejected e => Throw e
                      | FetchResolved r => Done r
                      end).

(** A synchronous step that may throw (a property read, a call). *)
Definition lift {A} (x : js_error + A) : async A :=
  match x with inl e => Throw e | inr a => Done a end.

(** ** Running against an upstream server *)

(** The upstream answers each request; requests are independent, so a
    function is enough. *)
Definition upstream := fetch_request -> fetch_outcome.

(** The outbound requests made, in order, and how the program ended. *)
Fixpoint run {A} (u : upstream) (p : async A) : list fetch_request * (js_error + A) :=
  match p with
  | Done a => ([], inr a)
  | Throw e => ([], inl e)
  | Await r k => let '(t, x) := run u (k (u r)) in (r :: t, x)
  end.

(** ** Laws *)

Section Laws.
Context {A B : Type} (u : upstream).

Lemma run_bind (p : async A) (f : A -> async B) :
  run u (p ≫= f) =
  let '(t1, x) := run u p in
  match x with
  | inl e => (t1, inl e)
  | inr a => let '(t2, y) := run u (f a) in (t1 ++ t2, y)
  end.
Proof.
  induction p as [a|e|r k IH]; simpl.
  - by destruct (run u (f a)).
  - done.
  - unfold mbind, async_mbind in *. rewrite IH.
    destruct (run u (k (u r))) as [t1 [e|a]]; [done|].
    by destruct (run u (f a)).
Qed.

Lemma run_catch (p : async A) (h : js_error -> async A) :
  run u (catch p h) =
  let '(t1, x) := run u p in
  match x with
  | inl e => let '(t2, y) := run u (h e) in (t1 ++ t2, y)
  | inr a => (t1, inr a)
  end.
Proof.
  induction p as [a|e|r k IH]; simpl; [done| |].
  - by destruct (run u (h e)).
  - rewrite IH. destruct (run u (k (u r))) as [t1 [e|a]]; [|done].
    by destruct (run u (h e)).
Qed.

(** A program that never awaits makes no outbound request. *)
Lemma run_lift (x : js_error + A) : run u (lift x) = ([], x).
Proof. by destruct x. Qed.

End Laws.

Lemma bind_done {A B} (a : A) (f : A -> async B) : (Done a ≫= f) = f a.
Proof. done. Qed.

Lemma bind_throw {A B} (e : js_error) (f : A -> async B) : (Throw e ≫= f) = Throw e.
Proof. done. Qed.

Lemma catch_done {A} (a : A) h : catch (Done a) h = Done a.
Proof. done. Qed.

Lemma catch_throw {A} (e : js_error) (h : js_error -> async A) : catch (Throw e) h = h e.
Proof. done. Qed.

#[export] Hint Rewrite @bind_done @bind_throw @catch_done @catch_throw : esv_rw.

(** ** Observational equivalence

    Two programs are equivalent when every upstream sees the same
    requests and the programs end the same way.  This is coarser than
    equality (continuations are functions), and is the equivalence the
    monad laws hold for. *)

#[export] Instance async_equiv {A} : Equiv (async A) := fun p q => forall u, run u p = run u q.

#[export] Instance async_equivalence {A} : Equivalence (≡@{async A}).
Proof. split; intros p; [done|intros q H u; by rewrite H|intros q r H1 H2 u; by rewrite H1, H2]. Qed.

Section Equiv.
Context {A B C : Type}.

#[export] Instance bind_proper :
  Proper (pointwise_relation A (≡@{async B}) ==> (≡) ==> (≡)) mbind.
Proof.
  intros f g Hfg p q Hpq u. rewrite !run_bind, (Hpq u).
  destruct (run u q) as [t [e|a]]; [done|]. by rewrite (Hfg a u).
Qed.

#[export] Instance catch_proper :
  Proper ((≡@{async A}) ==> pointwise_relation js_error (≡) ==> (≡)) catch.
Proof.
  intros p q Hpq h k Hhk u. rewrite !run_catch, (Hpq u).
  destruct (run u q) as [t [e|a]]; [|done]. by rewrite (Hhk e u).
Qed.

Lemma bind_ret_r (p : async A) : (p ≫= mret) ≡ p.
Proof. intros u. rewrite run_bind. destruct (run u p) as [t [e|a]]; simpl; by rewrite ?app_nil_r. Qed.

Lemma bind_assoc (p : async A) (f : A -> async B) (g : B -> async C) :
  ((p ≫= f) ≫= g) ≡ (p ≫= (fun x => f x ≫= g)).
Proof.
  intros u. rewrite !run_bind. destruct (run u p) as [t1 [e|a]]; [done|].
  rewrite run_bind. destruct (run u (f a)) as [t2 [e|b]]; [done|].
  destruct (run u (g b)) as [t3 y]. by rewrite app_assoc.
Qed.

(** A handler that rethrows is no handler. *)
Lemma catch_rethrow (p : async A) : catch p Throw ≡ p.
Proof. intros u. rewrite run_catch. destruct (run u p) as [t [e|a]]; simpl; by rewrite ?app_nil_r. Qed.

(** The try block's suffix after a synchronous step moves out of a
    catch whose handler does not resume it. *)
Lemma catch_lift (x : js_error + A) (f : A -> async B) (h : js_error -> async B) :
  catch (lift x ≫= f) h ≡ match x with inl e => h e | inr a => catch (f a) h end.
Proof. by destruct x. Qed.
End Equiv.
