(* ===== verification/FormUrl.v ===== *)
(** * FormUrl: the outbound URL of /passage (src/server.js:49-59)

    The handler builds new URLSearchParams({ q, ...six fixed flags }) and
    appends params.toString() to the ESV endpoint.  URLSearchParams keeps
    the pairs in the object's property order, converts each string to a
    sequence of Unicode scalar values (a lone surrogate becomes U+FFFD),
    and serializes with the application/x-www-form-urlencoded serializer
    of the WHATWG URL standard: UTF-8, then every byte outside
    [A-Za-z0-9*-._] percent-encoded in upper-case hex, except the space,
    which becomes '+'; pairs are written name=value and joined by '&'. *)

From S2P Require Import Prelude JsString.

Open Scope Z_scope.

(** ** UTF-16 to scalar values *)

Definition is_high_surrogate (c : Z) : bool := (0xD800 <=? c) && (c <=? 0xDBFF).
Definition is_low_surrogate (c : Z) : bool := (0xDC00 <=? c) && (c <=? 0xDFFF).

(** The USVString conversion of WebIDL: pairs combine, lone surrogates
    become U+FFFD. *)
Fixpoint to_scalars (s : jstr) : list Z :=
  match s with
  | [] => []
  | c :: s' =>
      if is_high_surrogate c then
        match s' with
        | d :: s'' =>
            if is_low_surrogate d
            then (0x10000 + Z.shiftl (c - 0xD800) 10 + (d - 0xDC00)) :: to_scalars s''
            else 0xFFFD :: to_scalars s'
        | [] => [0xFFFD]
        end
      else if is_low_surrogate c then 0xFFFD :: to_scalars s'
      else c :: to_scalars s'
  end.

(** ** UTF-8 *)

Definition utf8_encode_scalar (cp : Z) : list Z :=
  if cp <? 0x80 then [cp]
  else if cp <? 0x800 then
    [Z.lor 0xC0 (Z.shiftr cp 6); Z.lor 0x80 (Z.land cp 0x3F)]
  else if cp <? 0x10000 then
    [Z.lor 0xE0 (Z.shiftr cp 12); Z.lor 0x80 (Z.land (Z.shiftr cp 6) 0x3F);
     Z.lor 0x80 (Z.land cp 0x3F)]
  else
    [Z.lor 0xF0 (Z.shiftr cp 18); Z.lor 0x80 (Z.land (Z.shiftr cp 12) 0x3F);
     Z.lor 0x80 (Z.land (Z.shiftr cp 6) 0x3F); Z.lor 0x80 (Z.land cp 0x3F)].

Definition utf8_encode (s : jstr) : list Z := concat (map utf8_encode_scalar (to_scalars s)).

(** ** The urlencoded byte serializer *)

(** Bytes left as they are: ASCII alphanumerics and * - . _ *)
Definition form_unreserved (b : Z) : bool :=
  ((0x30 <=? b) && (b <=? 0x39)) || ((0x41 <=? b) && (b <=? 0x5A))
  || ((0x61 <=? b) && (b <=? 0x7A))
  || (b =? 0x2A) || (b =? 0x2D) || (b =? 0x2E) || (b =? 0x5F).

(** An upper-case hexadecimal digit. *)
Definition hex_digit (n : Z) : Z := if n <? 10 then 0x30 + n else 0x41 + (n - 10).

Definition form_byte (b : Z) : jstr :=
  if form_unreserved b then [b]
  else if b =? 0x20 then [0x2B]
  else [0x25; hex_digit (Z.shiftr b 4); hex_digit (Z.land b 0x0F)].

Definition form_encode (s : jstr) : jstr := concat (map form_byte (utf8_encode s)).

(** URLSearchParams.prototype.toString. *)
Definition serialize (pairs : list (jstr * jstr)) : jstr :=
  sep_join ⟪"&"⟫ (map (fun nv => form_encode nv.1 ++ ⟪"="⟫ ++ form_encode nv.2) pairs).

(** ** The URL of line 59 *)

(** The object of lines 49-57, in property order. *)
Definition passage_params (q : jstr) : list (jstr * jstr) :=
  [(⟪"q"⟫, q);
   (⟪"include-passage-references"⟫, ⟪"true"⟫);
   (⟪"include-verse-numbers"⟫, ⟪"true"⟫);
   (⟪"include-first-verse-numbers"⟫, ⟪"true"⟫);
   (⟪"include-headings"⟫, ⟪"true"⟫);
   (⟪"include-footnotes"⟫, ⟪"false"⟫);
   (⟪"include-short-copyright"⟫, ⟪"true"⟫)].

Definition esv_endpoint : jstr := ⟪"https://api.esv.org/v3/passage/text/?"⟫.

Definition passage_url (q : jstr) : jstr := esv_endpoint ++ serialize (passage_params q).

(** ** Splitting on a separator (the first step of the urlencoded parser) *)

Fixpoint split_on (sep : Z) (s : jstr) : list jstr :=
  match s with
  | [] => [[]]
  | c :: s' =>
      if c =? sep then [] :: split_on sep s'
      else match split_on sep s' with w :: ws => (c :: w) :: ws | [] => [[c]] end
  end.

(** ** Lemmas *)

Module FormFacts.

Definition lacks (sep : Z) (w : jstr) : bool := all (fun c => negb (c =? sep)) w.

Lemma split_on_app sep w rest :
  lacks sep w = true -> split_on sep (w ++ sep :: rest) = w :: split_on sep rest.
Proof.
  unfold lacks. induction w as [|c w IH]; simpl; [by rewrite Z.eqb_refl|].
  intros [Hc Hw]%andb_prop. apply negb_true_iff in Hc.
  rewrite Hc, IH by exact Hw. done.
Qed.

Lemma split_on_lacks sep w : lacks sep w = true -> split_on sep w = [w].
Proof.
  unfold lacks. induction w as [|c w IH]; simpl; [done|].
  intros [Hc Hw]%andb_prop. apply negb_true_iff in Hc.
  rewrite Hc, IH by exact Hw. done.
Qed.

Lemma split_on_sep_join sep ws :
  ws <> [] -> Forall (fun w => lacks sep w = true) ws -> split_on sep (sep_join [sep] ws) = ws.
Proof.
  intros Hne. induction 1 as [|w ws Hw Hws IH]; [done|].
  destruct ws as [|w' ws]; simpl sep_join; [by apply split_on_lacks|].
  simpl. rewrite split_on_app by done. f_equal. by apply IH.
Qed.

Lemma lacks_app sep w1 w2 : lacks sep (w1 ++ w2) = lacks sep w1 && lacks sep w2.
Proof. apply all_app. Qed.

Lemma lacks_concat sep ws : Forall (fun w => lacks sep w = true) ws -> lacks sep (concat ws) = true.
Proof. induction 1; simpl; [done|]. by rewrite lacks_app, andb_true_iff. Qed.

(** A hexadecimal digit of a non-negative nibble is a digit or a capital. *)
Lemma hex_digit_range n : 0 <= n -> (0x30 <= hex_digit n <= 0x39) \/ 0x41 <= hex_digit n.
Proof. unfold hex_digit. intros Hn. destruct (Z.ltb_spec n 10); lia. Qed.

Lemma form_byte_lacks sep b :
  0 <= b -> form_unreserved sep = false -> sep <> 0x2B -> sep <> 0x25 ->
  (sep < 0x30 \/ 0x39 < sep < 0x41) -> lacks sep (form_byte b) = true.
Proof.
  intros Hb Hu H1 H2 H3. unfold form_byte, lacks.
  destruct (form_unreserved b) eqn:Eb.
  - unfold all. cbn [forallb]. rewrite andb_true_r. apply negb_true_iff, Z.eqb_neq. intros ->. congruence.
  - destruct (b =? 0x20); unfold all; cbn [forallb]; rewrite ?andb_true_r.
    + apply negb_true_iff, Z.eqb_neq. congruence.
    + pose proof (hex_digit_range (Z.shiftr b 4) ltac:(by apply Z.shiftr_nonneg)).
      pose proof (hex_digit_range (Z.land b 0x0F) ltac:(apply Z.land_nonneg; lia)).
      repeat (apply andb_true_iff; split); apply negb_true_iff, Z.eqb_neq; lia.
Qed.

Lemma utf8_scalar_nonneg cp : 0 <= cp -> Forall (fun b => 0 <= b) (utf8_encode_scalar cp).
Proof.
  intros H. unfold utf8_encode_scalar.
  assert (Hs : forall n, 0 <= Z.shiftr cp n) by (intros; by apply Z.shiftr_nonneg).
  assert (Hl : forall x m, 0 <= x -> 0 <= m -> 0 <= Z.lor m x) by (intros; by apply Z.lor_nonneg).
  assert (Ha : forall x, 0 <= Z.land x 0x3F) by (intros; apply Z.land_nonneg; lia).
  repeat case_match; repeat constructor; auto with zarith; apply Hl; auto; lia.
Qed.

Lemma to_scalars_nonneg s : all (Z.leb 0) s = true -> Forall (fun c => 0 <= c) (to_scalars s).
Proof.
  remember (length s) as n eqn:Hn. assert (Hle : (length s <= n)%nat) by lia. clear Hn.
  revert s Hle. induction n as [|n IH]; intros [|c s] Hle Hall; simpl in *; try constructor; try lia.
  apply andb_prop in Hall as [Hc%Z.leb_le Hs].
  destruct (is_high_surrogate c) eqn:Eh.
  - destruct s as [|d s']; [repeat constructor; lia|].
    simpl in Hs. apply andb_prop in Hs as [Hd%Z.leb_le Hs'].
    unfold is_high_surrogate, is_low_surrogate in *.
    destruct ((0xDC00 <=? d) && (d <=? 0xDFFF)) eqn:El.
    + constructor; [|apply IH; simpl in *; auto; lia].
      apply andb_prop in Eh as [Eh1%Z.leb_le _]. apply andb_prop in El as [El1%Z.leb_le _].
      pose proof (Z.shiftl_nonneg (c - 0xD800) 10). lia.
    + constructor; [lia|]. apply IH; [simpl in *; lia|]. simpl. apply andb_true_iff; split; [by apply Z.leb_le|done].
  - destruct (is_low_surrogate c); constructor; try lia; apply IH; auto; lia.
Qed.


Lemma utf8_encode_nonneg s : all (Z.leb 0) s = true -> Forall (fun b => 0 <= b) (utf8_encode s).
Proof.
  intros Hs. unfold utf8_encode. apply Forall_concat, Forall_map.
  eapply Forall_impl; [by apply to_scalars_nonneg|]. intros cp Hcp. by apply utf8_scalar_nonneg.
Qed.

(** The encoding of a string holds no [sep] that is neither unreserved,
    a digit, a capital, '%' nor '+'. *)
Lemma form_encode_lacks sep s :
  all (Z.leb 0) s = true -> form_unreserved sep = false -> sep <> 0x2B -> sep <> 0x25 ->
  (sep < 0x30 \/ 0x39 < sep < 0x41) -> lacks sep (form_encode s) = true.
Proof.
  intros Hs H1 H2 H3 H4. unfold form_encode. apply lacks_concat, Forall_map.
  eapply Forall_impl; [by apply utf8_encode_nonneg|]. intros b Hb. by apply form_byte_lacks.
Qed.

End FormFacts.

(** ** Properties *)

Import FormFacts.

(** C8: Whatever the reference, the query string of the outbound URL
    splits on '&' into exactly seven fields: q=<encoded reference>, then
    the six flags of lines 51-56 verbatim (footnotes false, the others
    true).  A caller cannot add, remove or override a parameter. *)
Theorem passage_url_fields q :
  all (Z.leb 0) q = true ->
  split_on 0x26 (serialize (passage_params q)) =
  (⟪"q="⟫ ++ form_encode q)
  :: [⟪"include-passage-references=true"⟫; ⟪"include-verse-numbers=true"⟫;
      ⟪"include-first-verse-numbers=true"⟫; ⟪"include-headings=true"⟫;
      ⟪"include-footnotes=false"⟫; ⟪"include-short-copyright=true"⟫].
Proof.
  intros Hq. unfold serialize. rewrite split_on_sep_join; [reflexivity|done|].
  constructor; [|repeat constructor; reflexivity].
  cbn [fst snd]. rewrite !lacks_app, (form_encode_lacks 0x26 q) by (done || lia). reflexivity.
Qed.

Lemma passage_url_fields_witness :
  split_on 0x26 (serialize (passage_params ⟪"John 3:16&include-footnotes=true"⟫)) =
  (⟪"q="⟫ ++ form_encode ⟪"John 3:16&include-footnotes=true"⟫)
  :: [⟪"include-passage-references=true"⟫; ⟪"include-verse-numbers=true"⟫;
      ⟪"include-first-verse-numbers=true"⟫; ⟪"include-headings=true"⟫;
      ⟪"include-footnotes=false"⟫; ⟪"include-short-copyright=true"⟫].
Proof. apply passage_url_fields. reflexivity. Defined.
