(* ===== verification/FormParse.v ===== *)
(** * FormParse: the receiving side of the outbound query string

    The ESV API reads the query string that /passage builds
    (src/server.js:49-59) with an application/x-www-form-urlencoded
    parser.  This file gives that parser as the WHATWG URL standard
    defines it (split on '&', skip empty sequences, split each at the first
    '=', '+' to space, percent-decode, UTF-8 decode without BOM, the
    decoder being the Encoding standard's state machine), and proves that
    it inverts [FormUrl.serialize]: the server sees exactly the pairs the
    handler put in, each string as its sequence of Unicode scalar values.
    The parser is library behaviour, not code of the repository; it is the
    reference against which the serializer is judged. *)

From S2P Require Import Prelude JsString FormUrl.

Open Scope Z_scope.

(** ** The UTF-8 decoder of the Encoding standard *)

Record dstate := mk_dstate {
  d_cp : Z; d_seen : Z; d_needed : Z; d_lower : Z; d_upper : Z }.

Definition dinit : dstate := mk_dstate 0 0 0 0x80 0xBF.

(** The handler on a byte when no continuation byte is expected: the
    code points it emits and the next state. *)
Definition dstart (b : Z) : list Z * dstate :=
  if (0x00 <=? b) && (b <=? 0x7F) then ([b], dinit)
  else if (0xC2 <=? b) && (b <=? 0xDF) then ([], mk_dstate (Z.land b 0x1F) 0 1 0x80 0xBF)
  else if (0xE0 <=? b) && (b <=? 0xEF) then
    ([], mk_dstate (Z.land b 0xF) 0 2 (if b =? 0xE0 then 0xA0 else 0x80)
                                       (if b =? 0xED then 0x9F else 0xBF))
  else if (0xF0 <=? b) && (b <=? 0xF4) then
    ([], mk_dstate (Z.land b 0x7) 0 3 (if b =? 0xF0 then 0x90 else 0x80)
                                      (if b =? 0xF4 then 0x8F else 0xBF))
  else ([0xFFFD], dinit).

(** The handler on a byte.  A byte outside [lower, upper] while a
    sequence is open is an error and is put back in the queue, that is
    handled again from the initial state. *)
Definition dfeed (st : dstate) (b : Z) : list Z * dstate :=
  if d_needed st =? 0 then dstart b
  else if negb ((d_lower st <=? b) && (b <=? d_upper st)) then
    let '(o, st') := dstart b in (0xFFFD :: o, st')
  else
    let cp := Z.lor (Z.shiftl (d_cp st) 6) (Z.land b 0x3F) in
    if d_seen st + 1 =? d_needed st then ([cp], dinit)
    else ([], mk_dstate cp (d_seen st + 1) (d_needed st) 0x80 0xBF).

(** The decode loop; at the end of the queue an open sequence is an
    error. *)
Fixpoint drun (st : dstate) (bs : list Z) : list Z :=
  match bs with
  | [] => if d_needed st =? 0 then [] else [0xFFFD]
  | b :: bs' => let '(o, st') := dfeed st b in o ++ drun st' bs'
  end.

Definition utf8_decode (bs : list Z) : list Z := drun dinit bs.

(** ** Percent-decoding and the urlencoded parser *)

Definition hex_value (c : Z) : option Z :=
  if (0x30 <=? c) && (c <=? 0x39) then Some (c - 0x30)
  else if (0x41 <=? c) && (c <=? 0x46) then Some (c - 0x37)
  else if (0x61 <=? c) && (c <=? 0x66) then Some (c - 0x57)
  else None.

Fixpoint percent_decode (s : list Z) : list Z :=
  match s with
  | [] => []
  | c :: s' =>
      if c =? 0x25 then
        match s' with
        | h :: l :: r =>
            match hex_value h, hex_value l with
            | Some x, Some y => (x * 16 + y) :: percent_decode r
            | _, _ => c :: percent_decode s'
            end
        | _ => c :: percent_decode s'
        end
      else c :: percent_decode s'
  end.

Definition plus_to_space (s : list Z) : list Z :=
  map (fun c => if c =? 0x2B then 0x20 else c) s.

(** The bytes before the first [sep] and the bytes after it (all of
    them and nothing when there is no [sep]). *)
Fixpoint break_first (sep : Z) (s : list Z) : list Z * list Z :=
  match s with
  | [] => ([], [])
  | c :: s' => if c =? sep then ([], s') else let '(n, v) := break_first sep s' in (c :: n, v)
  end.

Definition decode_part (bytes : list Z) : list Z :=
  utf8_decode (percent_decode (plus_to_space bytes)).

Definition parse_pair (bytes : list Z) : list Z * list Z :=
  let '(n, v) := break_first 0x3D bytes in (decode_part n, decode_part v).

(** The application/x-www-form-urlencoded parser. *)
Definition parse (input : list Z) : list (list Z * list Z) :=
  map parse_pair (filter (fun s => s <> []) (split_on 0x26 input)).

(** JavaScript strings hold 16-bit code units. *)
Definition code_units (s : jstr) : bool := all (fun c => (0 <=? c) && (c <=? 0xFFFF)) s.

(** A Unicode scalar value. *)
Definition scalar (cp : Z) : bool :=
  (0 <=? cp) && (cp <=? 0x10FFFF) && negb ((0xD800 <=? cp) && (cp <=? 0xDFFF)).

(** ** The decoder on well-formed sequences *)

Module DecodeFacts.

Lemma cont_low m : 0 <= m < 64 -> Z.land (0x80 + m) 0x3F = m.
Proof. intros Hm. by apply (land_ones_add _ _ 6). Qed.

Lemma lead2_low a : 0 <= a < 32 -> Z.land (0xC0 + a) 0x1F = a.
Proof. intros Ha. by apply (land_ones_add _ _ 5). Qed.

Lemma lead3_low a : 0 <= a < 16 -> Z.land (0xE0 + a) 0xF = a.
Proof. intros Ha. by apply (land_ones_add _ _ 4). Qed.

Lemma lead4_low a : 0 <= a < 8 -> Z.land (0xF0 + a) 0x7 = a.
Proof. intros Ha. by apply (land_ones_add _ _ 3). Qed.

Lemma shift6 x m : 0 <= m < 64 -> Z.lor (Z.shiftl x 6) m = x * 64 + m.
Proof. intros Hm. by apply (shiftl_or_add _ _ 6). Qed.

(** Run the decoder over the bytes of a sequence whose ranges are known. *)
Ltac dsteps :=
  unfold utf8_decode;
  repeat (cbn [drun dfeed dstart d_needed d_cp d_seen d_lower d_upper dinit fst snd];
          unfold dfeed, dstart; zbool;
          rewrite ?lead2_low, ?lead3_low, ?lead4_low, ?cont_low by lia;
          rewrite ?shift6 by lia; cbn -[drun]).

Lemma decode_1 b rest : 0 <= b <= 0x7F -> utf8_decode (b :: rest) = b :: utf8_decode rest.
Proof. intros. dsteps. reflexivity. Qed.

Lemma decode_2 a m rest :
  2 <= a < 32 -> 0 <= m < 64 ->
  utf8_decode ((0xC0 + a) :: (0x80 + m) :: rest) = (a * 64 + m) :: utf8_decode rest.
Proof. intros. dsteps. reflexivity. Qed.

Lemma decode_3 a m1 m0 rest :
  0 <= a < 16 -> 0 <= m1 < 64 -> 0 <= m0 < 64 ->
  (a = 0 -> 32 <= m1) -> (a = 13 -> m1 < 32) ->
  utf8_decode ((0xE0 + a) :: (0x80 + m1) :: (0x80 + m0) :: rest)
  = (a * 4096 + m1 * 64 + m0) :: utf8_decode rest.
Proof.
  intros. destruct (Z.eq_dec a 0), (Z.eq_dec a 13); dsteps; f_equal; lia.
Qed.

Lemma decode_4 a m2 m1 m0 rest :
  0 <= a <= 4 -> 0 <= m2 < 64 -> 0 <= m1 < 64 -> 0 <= m0 < 64 ->
  (a = 0 -> 16 <= m2) -> (a = 4 -> m2 < 16) ->
  utf8_decode ((0xF0 + a) :: (0x80 + m2) :: (0x80 + m1) :: (0x80 + m0) :: rest)
  = (a * 262144 + m2 * 4096 + m1 * 64 + m0) :: utf8_decode rest.
Proof.
  intros. destruct (Z.eq_dec a 0), (Z.eq_dec a 4); dsteps; f_equal; lia.
Qed.

End DecodeFacts.

(** ** The encoder in arithmetic form *)

Module EncodeFacts.

Lemma shr6 x : Z.shiftr x 6 = x / 64.
Proof. by apply Z.shiftr_div_pow2. Qed.

Lemma shr12 x : Z.shiftr x 12 = x / 64 / 64.
Proof. rewrite Z.shiftr_div_pow2, Z.div_div by lia. reflexivity. Qed.

Lemma shr18 x : Z.shiftr x 18 = x / 64 / 64 / 64.
Proof. rewrite Z.shiftr_div_pow2, !Z.div_div by lia. reflexivity. Qed.

Lemma mask3F x : Z.land x 0x3F = x mod 64.
Proof. by apply (Z.land_ones x 6). Qed.

(** The base-64 digits of a non-negative number, as linear facts. *)
Ltac digits cp :=
  pose proof (div_mod_linear cp 64 ltac:(lia));
  pose proof (div_mod_linear (cp / 64) 64 ltac:(lia));
  pose proof (div_mod_linear (cp / 64 / 64) 64 ltac:(lia)).

Ltac lead k := rewrite (lor_low_add _ _ k); [| lia | reflexivity | lia].

Ltac conts := repeat rewrite (lor_low_add 0x80 _ 6) by (reflexivity || lia).

Lemma encode_2 cp :
  0x80 <= cp < 0x800 -> utf8_encode_scalar cp = [0xC0 + cp / 64; 0x80 + cp mod 64].
Proof. intros. digits cp. unfold utf8_encode_scalar. zbool. rewrite shr6, mask3F. lead 5. by conts. Qed.

Lemma encode_3 cp :
  0x800 <= cp < 0x10000 ->
  utf8_encode_scalar cp = [0xE0 + cp / 64 / 64; 0x80 + (cp / 64) mod 64; 0x80 + cp mod 64].
Proof.
  intros. digits cp. unfold utf8_encode_scalar. zbool. rewrite shr12, shr6, !mask3F.
  lead 4. by conts.
Qed.

Lemma encode_4 cp :
  0x10000 <= cp <= 0x10FFFF ->
  utf8_encode_scalar cp =
  [0xF0 + cp / 64 / 64 / 64; 0x80 + (cp / 64 / 64) mod 64; 0x80 + (cp / 64) mod 64;
   0x80 + cp mod 64].
Proof.
  intros. digits cp. unfold utf8_encode_scalar. zbool. rewrite shr18, shr12, shr6, !mask3F.
  lead 3. by conts.
Qed.
End EncodeFacts.

(** ** UTF-8 round trip *)

Module Utf8Facts.
Import DecodeFacts EncodeFacts.

Lemma decode_encode_scalar cp rest :
  scalar cp = true -> utf8_decode (utf8_encode_scalar cp ++ rest) = cp :: utf8_decode rest.
Proof.
  unfold scalar. intros Hs. zhyps; digits cp.
  all: destruct (Z.lt_ge_cases cp 0x80);
    [ assert (utf8_encode_scalar cp = [cp]) as -> by (unfold utf8_encode_scalar; by zbool);
      apply decode_1; lia |].
  all: destruct (Z.lt_ge_cases cp 0x800);
    [ rewrite encode_2 by lia; cbn [app]; rewrite decode_2 by lia; f_equal; lia |].
  all: destruct (Z.lt_ge_cases cp 0x10000);
    [ rewrite encode_3 by lia; cbn [app]; rewrite decode_3 by lia; f_equal; lia |].
  all: rewrite encode_4 by lia; cbn [app]; rewrite decode_4 by lia; f_equal; lia.
Qed.

Lemma decode_encode_scalars l :
  Forall (fun c => scalar c = true) l -> utf8_decode (concat (map utf8_encode_scalar l)) = l.
Proof.
  induction 1 as [|cp l Hcp Hl IH]; [done|].
  cbn [map concat]. by rewrite decode_encode_scalar, IH.
Qed.

(** USVString conversion yields scalar values. *)
Lemma to_scalars_scalar s :
  code_units s = true -> Forall (fun c => scalar c = true) (to_scalars s).
Proof.
  unfold code_units. remember (length s) as n eqn:Hn.
  assert (Hle : (length s <= n)%nat) by lia. clear Hn.
  revert s Hle. induction n as [|n IH]; intros [|c s] Hle Hs; simpl in *; try constructor; try lia.
  apply andb_prop in Hs as [Hc Hs].
  unfold is_high_surrogate, is_low_surrogate.
  destruct ((0xD800 <=? c) && (c <=? 0xDBFF)) eqn:Eh.
  - destruct s as [|d s']; [repeat constructor|].
    simpl in Hs. apply andb_prop in Hs as [Hd Hs'].
    destruct ((0xDC00 <=? d) && (d <=? 0xDFFF)) eqn:El; constructor.
    + rewrite Z.shiftl_mul_pow2 by lia. unfold scalar. zsolve.
    + apply IH; [simpl in *; lia | done].
    + done.
    + apply IH; [simpl in *; lia | by apply andb_true_iff].
  - destruct ((0xDC00 <=? c) && (c <=? 0xDFFF)) eqn:El; constructor; try (apply IH; auto; lia).
    + done.
    + unfold scalar. zsolve.
Qed.

(** UTF-8 bytes are bytes. *)
Lemma utf8_scalar_bytes cp :
  scalar cp = true -> Forall (fun b => 0 <= b < 256) (utf8_encode_scalar cp).
Proof.
  unfold scalar. intros Hs. zhyps; digits cp.
  all: destruct (Z.lt_ge_cases cp 0x80);
    [ assert (utf8_encode_scalar cp = [cp]) as -> by (unfold utf8_encode_scalar; by zbool);
      repeat constructor; lia |].
  all: destruct (Z.lt_ge_cases cp 0x800); [rewrite encode_2 by lia; repeat constructor; lia|].
  all: destruct (Z.lt_ge_cases cp 0x10000); [rewrite encode_3 by lia; repeat constructor; lia|].
  all: rewrite encode_4 by lia; repeat constructor; lia.
Qed.

Lemma utf8_encode_bytes s :
  code_units s = true -> Forall (fun b => 0 <= b < 256) (utf8_encode s).
Proof.
  intros Hs. unfold utf8_encode. apply Forall_concat, Forall_map.
  eapply Forall_impl; [by apply to_scalars_scalar|]. intros cp Hcp. by apply utf8_scalar_bytes.
Qed.

End Utf8Facts.

(** ** Percent-decoding inverts the byte serializer *)

Module PercentFacts.
Import FormFacts.

Lemma hex_value_digit n : 0 <= n < 16 -> hex_value (hex_digit n) = Some n.
Proof. intros Hn. unfold hex_value, hex_digit. destruct (Z.ltb_spec n 10); zbool; f_equal; lia. Qed.

Lemma plus_to_space_app s1 s2 : plus_to_space (s1 ++ s2) = plus_to_space s1 ++ plus_to_space s2.
Proof. apply map_app. Qed.

Lemma form_byte_decode b rest :
  0 <= b < 256 ->
  percent_decode (plus_to_space (form_byte b ++ rest)) = b :: percent_decode (plus_to_space rest).
Proof.
  intros Hb. rewrite plus_to_space_app. unfold form_byte.
  destruct (form_unreserved b) eqn:Eu; [|destruct (Z.eqb_spec b 0x20) as [->|Hsp]].
  - unfold form_unreserved in Eu. cbn [plus_to_space map app percent_decode].
    unfold plus_to_space at 1. cbn [map app percent_decode]. zhyps; zbool; done.
  - reflexivity.
  - rewrite Z.shiftr_div_pow2 by lia. change (2 ^ 4) with 16.
    replace (Z.land b 0x0F) with (b mod 16) by (symmetry; by apply (Z.land_ones b 4)).
    pose proof (div_mod_linear b 16 ltac:(lia)).
    pose proof (hex_digit_range (b / 16) ltac:(lia)).
    pose proof (hex_digit_range (b mod 16) ltac:(lia)).
    unfold plus_to_space at 1. cbn [map app percent_decode]. zbool.
    rewrite !hex_value_digit by lia. f_equal. lia.
Qed.

Lemma percent_decode_form bs :
  Forall (fun b => 0 <= b < 256) bs -> percent_decode (plus_to_space (concat (map form_byte bs))) = bs.
Proof.
  induction 1 as [|b bs Hb Hbs IH]; [done|].
  cbn [map concat]. by rewrite form_byte_decode, IH.
Qed.

End PercentFacts.

(** ** The parser inverts the serializer *)

Module ParseFacts.
Import FormFacts Utf8Facts PercentFacts.

Lemma code_units_nonneg s : code_units s = true -> all (Z.leb 0) s = true.
Proof.
  unfold code_units. induction s as [|c s IH]; [done|].
  rewrite !all_cons. intros [Hc Hs]%andb_prop. zhyps. rewrite IH by done. by zbool.
Qed.

Lemma decode_part_form s : code_units s = true -> decode_part (form_encode s) = to_scalars s.
Proof.
  intros Hs. unfold decode_part, form_encode.
  rewrite percent_decode_form by by apply utf8_encode_bytes.
  by apply decode_encode_scalars, to_scalars_scalar.
Qed.

Lemma break_first_app sep w rest :
  lacks sep w = true -> break_first sep (w ++ sep :: rest) = (w, rest).
Proof.
  unfold lacks. induction w as [|c w IH]; simpl; [by rewrite Z.eqb_refl|].
  intros [Hc Hw]%andb_prop. apply negb_true_iff in Hc. by rewrite Hc, IH.
Qed.

Lemma filter_nonempty (l : list (list Z)) :
  Forall (fun s => s <> []) l -> filter (fun s => s <> []) l = l.
Proof. induction 1; [done|]. rewrite filter_cons_True by done. by f_equal. Qed.

(** One name=value field of the serializer parses back to the pair. *)
Lemma parse_field n v :
  code_units n = true -> code_units v = true ->
  parse_pair (form_encode n ++ ⟪"="⟫ ++ form_encode v) = (to_scalars n, to_scalars v).
Proof.
  intros Hn Hv. unfold parse_pair. change ⟪"="⟫ with [0x3D]. cbn [app].
  rewrite break_first_app by (apply form_encode_lacks; [by apply code_units_nonneg|done|lia..]).
  by rewrite !decode_part_form.
Qed.

Lemma field_lacks_amp (nv : jstr * jstr) :
  code_units nv.1 = true -> code_units nv.2 = true ->
  lacks 0x26 (form_encode nv.1 ++ ⟪"="⟫ ++ form_encode nv.2) = true.
Proof.
  intros Hn Hv. rewrite !lacks_app, !form_encode_lacks; try done; try lia;
    by apply code_units_nonneg.
Qed.
End ParseFacts.

(** ** Properties *)

Import FormFacts Utf8Facts ParseFacts.

(** The application/x-www-form-urlencoded parser inverts
    URLSearchParams.toString: for any pairs of JavaScript strings, parsing
    the serialization gives back the pairs, each string as its sequence
    of Unicode scalar values (lone surrogates as U+FFFD). *)
Lemma parse_serialize ps :
  Forall (fun nv => code_units nv.1 = true /\ code_units nv.2 = true) ps ->
  parse (serialize ps) = map (fun nv => (to_scalars nv.1, to_scalars nv.2)) ps.
Proof.
  intros Hps. destruct ps as [|p ps']; [reflexivity|].
  unfold parse, serialize. change ⟪"&"⟫ with [0x26].
  rewrite split_on_sep_join; [|done|].
  - rewrite filter_nonempty.
    + rewrite map_map. apply map_ext_Forall. eapply Forall_impl; [exact Hps|].
      intros nv [Hn Hv]. by apply parse_field.
    + apply Forall_map. eapply Forall_impl; [exact Hps|]. intros nv _. by destruct (form_encode nv.1).
  - apply Forall_map. eapply Forall_impl; [exact Hps|]. intros nv [Hn Hv]. by apply field_lacks_amp.
Qed.

(** C9: The ESV API, parsing the query string of the outbound URL of
    /passage, reads the parameter q as the normalized reference (as
    scalar values) followed by exactly the six fixed flags, whatever the
    reference contains. *)
Theorem passage_query_roundtrip q :
  code_units q = true ->
  parse (serialize (passage_params q)) = (⟪"q"⟫, to_scalars q) :: tail (passage_params q).
Proof.
  intros Hq. rewrite parse_serialize.
  - reflexivity.
  - repeat constructor; done.
Qed.

Lemma passage_query_roundtrip_witness :
  parse (serialize (passage_params (⟪"John 3:16&include-footnotes=true"⟫ ++ [0x2014])))
  = (⟪"q"⟫, to_scalars (⟪"John 3:16&include-footnotes=true"⟫ ++ [0x2014]))
    :: tail (passage_params (⟪"John 3:16&include-footnotes=true"⟫ ++ [0x2014])).
Proof. apply passage_query_roundtrip. reflexivity. Defined.
