(* ===== verification/Server.v ===== *)
(** * Server: the Express application of src/server.js

    The response object [res_state] is what the handlers mutate
    (statusCode, headers, the body once sent).  [cors_middleware] is the
    app.use of lines 6-12, [esvGet] lines 28-40, [healthz_handler] line
    42, [passage_handler] lines 44-67 with its try/catch, [app] the
    dispatch Express performs (middleware first, then the two GET routes,
    then the default 404), [startup] lines 15-19 and 69.  The ESV key is
    a parameter of the handlers: the source reads it from a module-level
    constant fixed at startup.  [passage_start], [passage_direct] and
    [app_direct] are derived reformulations (a reply as a function of the
    result of normalizeReference and of the fetch outcome), proved equal
    to the model of the code ([app_run]) and used in the proofs; the
    properties are stated on [app] itself. *)

From stdpp Require Import gmap.
From S2P Require Import Prelude JsString JsValue Normalize Async FormUrl.

Open Scope Z_scope.

(** ** The response object *)

Inductive body :=
| BodyEmpty
| BodyText (s : jstr)
| BodyJson (v : jsval)
| BodyNotFound (method path : jstr).   (** finalhandler's "Cannot GET /path" page *)

Record res_state := mk_res { res_status : Z; res_headers : list (jstr * jstr); res_body : option body }.

(** A fresh ServerResponse: status 200, no header, nothing sent. *)
Definition fresh_res : res_state := mk_res 200 [] None.

(** ASCII lower case, as header names and route paths compare. *)
Definition ascii_lower (c : Z) : Z := if (0x41 <=? c) && (c <=? 0x5A) then c + 0x20 else c.

Definition same_name (a b : jstr) : bool := bool_decide (map ascii_lower a = map ascii_lower b).

(** res.setHeader: replaces a header of the same name in place, or adds
    it at the end. *)
Fixpoint put_header (name value : jstr) (hs : list (jstr * jstr)) : list (jstr * jstr) :=
  match hs with
  | [] => [(name, value)]
  | (n, v) :: hs' => if same_name n name then (name, value) :: hs' else (n, v) :: put_header name value hs'
  end.

Definition set_header (name value : jstr) (r : res_state) : res_state :=
  mk_res (res_status r) (put_header name value (res_headers r)) (res_body r).

(** res.status(n) *)
Definition res_set_status (n : Z) (r : res_state) : res_state :=
  mk_res n (res_headers r) (res_body r).

(** res.json(obj) *)
Definition res_json (v : jsval) (r : res_state) : res_state :=
  mk_res (res_status r) (res_headers r) (Some (BodyJson v)).

(** res.send(text): Express strips the body of a 204 or 304. *)
Definition res_send (s : jstr) (r : res_state) : res_state :=
  mk_res (res_status r) (res_headers r)
    (Some (if (res_status r =? 204) || (res_status r =? 304) then BodyEmpty else BodyText s)).

Definition status_message (n : Z) : jstr := if n =? 204 then ⟪"No Content"⟫ else z_to_dec n.

(** res.sendStatus(n) *)
Definition res_send_status (n : Z) (r : res_state) : res_state :=
  res_send (status_message n) (res_set_status n r).

(** ** Requests and what the client receives *)

Record request := mk_req { req_method : jstr; req_path : jstr; req_query_q : jsval }.

Record response := mk_response { status : Z; headers : list (jstr * jstr); body_of : body }.

(** What goes on the wire: Node sends no body for HEAD. *)
Definition transmit (req : request) (r : res_state) : response :=
  mk_response (res_status r) (res_headers r)
    (if bool_decide (req_method req = ⟪"HEAD"⟫) then BodyEmpty
     else match res_body r with Some b => b | None => BodyEmpty end).

(** ** CORS middleware (lines 6-12) *)

Inductive mw_result := MwEnded (r : res_state) | MwNext (r : res_state).

Definition cors_middleware (req : request) (r : res_state) : mw_result :=
  let r := set_header ⟪"Access-Control-Allow-Origin"⟫ ⟪"*"⟫ r in
  let r := set_header ⟪"Access-Control-Allow-Methods"⟫ ⟪"GET,OPTIONS"⟫ r in
  let r := set_header ⟪"Access-Control-Allow-Headers"⟫ ⟪"Content-Type,Authorization"⟫ r in
  if bool_decide (req_method req = ⟪"OPTIONS"⟫) then MwEnded (res_send_status 204 r) else MwNext r.

(** ** esvGet (lines 28-40) *)

Definition is_ok (status : Z) : bool := (200 <=? status) && (status <=? 299).

Definition esvGet (key url : jstr) : async jsval :=
  res ← fetch (mk_request url (⟪"Token "⟫ ++ key));
  let data := match resp_json res with Some v => v | None => JObj [] end in
  if negb (is_ok (resp_status res)) then
    e ← lift (new_error (js_or (read_prop_opt data ⟪"detail"⟫)
                               (JStr (⟪"HTTP "⟫ ++ z_to_dec (resp_status res)))));
    Throw e
  else Done data.

(** ** The routes (lines 42-67) *)

Definition healthz_handler (r : res_state) : async res_state :=
  Done (res_send ⟪"ok"⟫ (res_set_status 200 r)).

(** (payload.passages || []).join("\n"): only an array has a join
    method; V8 names the callee in the TypeError. *)
Definition call_join (v : jsval) (sep : jstr) : js_error + jstr :=
  match v with
  | JArr items => array_join sep items
  | _ => inl (type_error ⟪"(payload.passages || []).join is not a function"⟫)
  end.

(** String(e.message || e) *)
Definition error_text (e : js_error) : jstr :=
  if bool_decide (err_message e = []) then error_to_string e else err_message e.

Definition missing_q_payload : jsval := JObj [(⟪"error"⟫, JStr ⟪"Missing query param q"⟫)].

(** The body of the try block. *)
Definition passage_try (key : jstr) (req : request) (r : res_state) : async res_state :=
  q ← lift (normalizeReference (req_query_q req));
  if bool_decide (q = []) then Done (res_json missing_q_payload (res_set_status 400 r))
  else
    payload ← esvGet key (passage_url q);
    passages ← lift (read_prop payload ⟪"passages"⟫);
    joined ← lift (call_join (js_or passages (JArr [])) [0x0A]);
    Done (res_json (JObj [(⟪"query"⟫, JStr q); (⟪"text"⟫, JStr (trim joined))]) r).

Definition passage_handler (key : jstr) (req : request) (r : res_state) : async res_state :=
  catch (passage_try key req r)
    (fun e => Done (res_json (JObj [(⟪"error"⟫, JStr (error_text e))]) (res_set_status 500 r))).

(** ** Dispatch *)

(** Express routes compare paths case-insensitively (ASCII only, the i
    flag without u) and accept one trailing slash (strict routing off). *)
Definition route_matches (route path : jstr) : bool :=
  let p := map ascii_lower path in bool_decide (p = route) || bool_decide (p = route ++ ⟪"/"⟫).

(** app.get serves GET and HEAD. *)
Definition get_like (m : jstr) : bool := bool_decide (m = ⟪"GET"⟫) || bool_decide (m = ⟪"HEAD"⟫).

(** finalhandler: no route answered. *)
Definition not_found (req : request) (r : res_state) : res_state :=
  mk_res 404 (res_headers r) (Some (BodyNotFound (req_method req) (req_path req))).

Definition app (key : jstr) (req : request) : async response :=
  match cors_middleware req fresh_res with
  | MwEnded r => Done (transmit req r)
  | MwNext r =>
      if get_like (req_method req) && route_matches ⟪"/healthz"⟫ (req_path req) then
        r' ← healthz_handler r; Done (transmit req r')
      else if get_like (req_method req) && route_matches ⟪"/passage"⟫ (req_path req) then
        r' ← passage_handler key req r; Done (transmit req r')
      else Done (transmit req (not_found req r))
  end.

(** ** Startup (lines 15-19, 69) *)

Record config := mk_config { esv_api_key : jstr; port : jsval }.

Inductive startup_outcome := Exited (code : Z) | Listening (c : config).

(** process.env[name]: a string or undefined. *)
Definition env_get (env : gmap jstr jstr) (name : jstr) : jsval :=
  match env !! name with Some v => JStr v | None => JUndefined end.

Definition startup (env : gmap jstr jstr) : startup_outcome :=
  let key := env_get env ⟪"ESV_API_KEY"⟫ in
  if negb (truthy key) then Exited 1
  else Listening (mk_config (prim_string key) (js_or (env_get env ⟪"PORT"⟫) (JNum ⟪"3000"⟫))).

(** A request served by the process started in [env]: nothing when the
    process exited. *)
Definition serve (env : gmap jstr jstr) (u : upstream) (req : request)
  : option (list fetch_request * (js_error + response)) :=
  match startup env with
  | Exited _ => None
  | Listening c => Some (run u (app (esv_api_key c) req))
  end.

(** ** Direct style: the request as one call and a reply *)

Definition cors_headers : list (jstr * jstr) :=
  [(⟪"Access-Control-Allow-Origin"⟫, ⟪"*"⟫);
   (⟪"Access-Control-Allow-Methods"⟫, ⟪"GET,OPTIONS"⟫);
   (⟪"Access-Control-Allow-Headers"⟫, ⟪"Content-Type,Authorization"⟫)].

(** The response object once the middleware has run. *)
Definition cors_res : res_state := mk_res 200 cors_headers None.

(** The outbound request for a normalized reference [q]. *)
Definition outbound (key q : jstr) : fetch_request :=
  mk_request (passage_url q) (⟪"Token "⟫ ++ key).

(** The text of the passage, or the error thrown, from what fetch
    settled to. *)
Definition passage_outcome (o : fetch_outcome) : js_error + jstr :=
  match o with
  | FetchRejected e => inl e
  | FetchResolved res =>
      let data := match resp_json res with Some v => v | None => JObj [] end in
      if negb (is_ok (resp_status res)) then
        match new_error (js_or (read_prop_opt data ⟪"detail"⟫)
                               (JStr (⟪"HTTP "⟫ ++ z_to_dec (resp_status res)))) with
        | inl e => inl e
        | inr e => inl e
        end
      else
        match read_prop data ⟪"passages"⟫ with
        | inl e => inl e
        | inr p => match call_join (js_or p (JArr [])) [0x0A] with
                   | inl e => inl e
                   | inr j => inr (trim j)
                   end
        end
  end.

Definition passage_reply (q : jstr) (x : js_error + jstr) (r : res_state) : res_state :=
  match x with
  | inl e => res_json (JObj [(⟪"error"⟫, JStr (error_text e))]) (res_set_status 500 r)
  | inr text => res_json (JObj [(⟪"query"⟫, JStr q); (⟪"text"⟫, JStr text)]) r
  end.

Definition passage_direct (u : upstream) (key q : jstr) (r : res_state)
  : list fetch_request * res_state :=
  if bool_decide (q = []) then ([], res_json missing_q_payload (res_set_status 400 r))
  else ([outbound key q], passage_reply q (passage_outcome (u (outbound key q))) r).

(** The handler from the result of normalizeReference: a thrown error is
    answered 500 before any request. *)
Definition passage_start (u : upstream) (key : jstr) (qn : js_error + jstr) (r : res_state)
  : list fetch_request * res_state :=
  match qn with
  | inl e => ([], passage_reply [] (inl e) r)
  | inr q => passage_direct u key q r
  end.

Definition app_direct (u : upstream) (key : jstr) (req : request)
  : list fetch_request * res_state :=
  if bool_decide (req_method req = ⟪"OPTIONS"⟫) then ([], res_send_status 204 cors_res)
  else if get_like (req_method req) && route_matches ⟪"/healthz"⟫ (req_path req) then
    ([], res_send ⟪"ok"⟫ (res_set_status 200 cors_res))
  else if get_like (req_method req) && route_matches ⟪"/passage"⟫ (req_path req) then
    passage_start u key (normalizeReference (req_query_q req)) cors_res
  else ([], not_found req cors_res).

Section Run.
Context (u : upstream) (key : jstr).

Lemma cors_middleware_fresh req :
  cors_middleware req fresh_res =
  if bool_decide (req_method req = ⟪"OPTIONS"⟫) then MwEnded (res_send_status 204 cors_res)
  else MwNext cors_res.
Proof. unfold cors_middleware. case_bool_decide; reflexivity. Qed.

Lemma passage_handler_run req r :
  run u (passage_handler key req r) =
  let '(t, r') := passage_start u key (normalizeReference (req_query_q req)) r in (t, inr r').
Proof.
  unfold passage_handler, passage_start, passage_direct. rewrite run_catch. unfold passage_try.
  rewrite run_bind. destruct (normalizeReference (req_query_q req)) as [e|q]; [done|].
  cbn [run lift]. destruct (bool_decide (q = [])); [done|].
  unfold esvGet, fetch, outbound. rewrite !run_bind. cbn [run].
  destruct (u _) as [e|[st js]]; simpl; [done|].
  destruct (negb (is_ok st)); simpl.
  - by destruct (new_error _).
  - destruct (read_prop _ _) as [e|p]; simpl; [done|].
    by destruct (call_join _ _).
Qed.

Lemma app_run req :
  run u (app key req) = let '(t, r) := app_direct u key req in (t, inr (transmit req r)).
Proof.
  unfold app, app_direct. rewrite cors_middleware_fresh.
  destruct (bool_decide (req_method req = ⟪"OPTIONS"⟫)); [reflexivity|].
  destruct (get_like _ && route_matches ⟪"/healthz"⟫ _); [reflexivity|].
  destruct (get_like _ && route_matches ⟪"/passage"⟫ _); [|reflexivity].
  rewrite run_bind, passage_handler_run.
  destruct (passage_start _ _ _ _); simpl. by rewrite app_nil_r.
Qed.
End Run.

(** ** Facts used by the properties *)

Module ServerFacts.

Lemma get_not_options : bool_decide (⟪"GET"⟫ = ⟪"OPTIONS"⟫) = false.
Proof. reflexivity. Qed.

Lemma head_not_options : bool_decide (⟪"HEAD"⟫ = ⟪"OPTIONS"⟫) = false.
Proof. reflexivity. Qed.

Lemma options_is_options : bool_decide (⟪"OPTIONS"⟫ = ⟪"OPTIONS"⟫) = true.
Proof. reflexivity. Qed.

Lemma get_like_get : get_like ⟪"GET"⟫ = true.
Proof. reflexivity. Qed.

Lemma get_like_head : get_like ⟪"HEAD"⟫ = true.
Proof. reflexivity. Qed.

Lemma get_not_head : bool_decide (⟪"GET"⟫ = ⟪"HEAD"⟫) = false.
Proof. reflexivity. Qed.

Lemma head_is_head : bool_decide (⟪"HEAD"⟫ = ⟪"HEAD"⟫) = true.
Proof. reflexivity. Qed.

(** No path matches both routes. *)
Lemma passage_not_healthz p :
  route_matches ⟪"/passage"⟫ p = true -> route_matches ⟪"/healthz"⟫ p = false.
Proof.
  unfold route_matches. set (l := map ascii_lower p).
  intros H. apply orb_true_iff in H as [H|H]; apply bool_decide_eq_true in H;
    rewrite H; reflexivity.
Qed.

#[export] Hint Rewrite get_not_options head_not_options options_is_options get_like_get
  get_like_head get_not_head head_is_head : esv_rw.

(** Every response object the app produces keeps the CORS headers. *)
Lemma passage_direct_headers u key q :
  res_headers (passage_direct u key q cors_res).2 = cors_headers.
Proof.
  unfold passage_direct. case_bool_decide; [done|]. simpl.
  by destruct (passage_outcome _).
Qed.

Lemma passage_start_headers u key qn :
  res_headers (passage_start u key qn cors_res).2 = cors_headers.
Proof. destruct qn; [done|apply passage_direct_headers]. Qed.

Lemma app_direct_headers u key req : res_headers (app_direct u key req).2 = cors_headers.
Proof.
  unfold app_direct. case_bool_decide; [done|].
  destruct (_ && _); [done|]. destruct (_ && _); [apply passage_start_headers|done].
Qed.

Lemma transmit_get path q r :
  transmit (mk_req ⟪"GET"⟫ path q) r =
  mk_response (res_status r) (res_headers r) (match res_body r with Some b => b | None => BodyEmpty end).
Proof. unfold transmit. cbn [req_method]. by rewrite get_not_head. Qed.

(** A GET of the /passage route runs [passage_direct]. *)
Lemma app_run_passage_start u key path q :
  route_matches ⟪"/passage"⟫ path = true ->
  run u (app key (mk_req ⟪"GET"⟫ path q)) =
  let '(t, r) := passage_start u key (normalizeReference q) cors_res in
  (t, inr (transmit (mk_req ⟪"GET"⟫ path q) r)).
Proof.
  intros Hp. rewrite app_run. unfold app_direct. cbn [req_method req_path req_query_q].
  rewrite get_not_options, get_like_get, passage_not_healthz, Hp by done. done.
Qed.

(** A GET of /passage whose reference normalizes to [n]. *)
Lemma app_run_passage u key path q n :
  route_matches ⟪"/passage"⟫ path = true -> normalizeReference q = inr n ->
  run u (app key (mk_req ⟪"GET"⟫ path q)) =
  let '(t, r) := passage_direct u key n cors_res in
  (t, inr (transmit (mk_req ⟪"GET"⟫ path q) r)).
Proof. intros Hp Hn. rewrite app_run_passage_start, Hn by done. done. Qed.

(** A GET of /passage whose reference throws in String(). *)
Lemma app_run_passage_throw u key path q e :
  route_matches ⟪"/passage"⟫ path = true -> normalizeReference q = inl e ->
  run u (app key (mk_req ⟪"GET"⟫ path q)) =
  ([], inr (mk_response 500 cors_headers (BodyJson (JObj [(⟪"error"⟫, JStr (error_text e))])))).
Proof. intros Hp Hn. rewrite app_run_passage_start, Hn by done. simpl. by rewrite transmit_get. Qed.

(** The non-blank reference [n] is fetched and the reply settles to [o]. *)
Lemma app_run_fetch u key path q n o :
  route_matches ⟪"/passage"⟫ path = true -> normalizeReference q = inr n -> n <> [] ->
  u (outbound key n) = o ->
  run u (app key (mk_req ⟪"GET"⟫ path q)) =
  ([outbound key n], inr (transmit (mk_req ⟪"GET"⟫ path q) (passage_reply n (passage_outcome o) cors_res))).
Proof.
  intros Hp Hn Hne Ho. rewrite (app_run_passage _ _ _ _ n) by done.
  unfold passage_direct. rewrite bool_decide_false by done. by rewrite Ho.
Qed.

(** The error of the passage outcome is the rejection, or an error with a
    name. *)
Lemma passage_outcome_error o e :
  passage_outcome o = inl e -> o = FetchRejected e \/ err_name e <> [].
Proof.
  intros Ho. destruct o as [e'|[st js]]; simpl in Ho; [injection Ho as ->; by left|right].
  destruct (negb (is_ok st)); simpl in Ho.
  { rewrite new_error_spec in Ho. by destruct (to_string _); injection Ho as <-. }
  destruct (read_prop _ _) as [e'|p] eqn:Ep; simpl in Ho.
  - injection Ho as <-.
    destruct (match js with Some v => v | None => JObj [] end); simpl in Ep;
      try discriminate; injection Ep as <-; discriminate.
  - destruct (call_join _ _) eqn:Ej; simpl in Ho; [|done]. injection Ho as <-.
    destruct (js_or p (JArr [])); simpl in Ej; try (injection Ej as <-; discriminate).
    by apply array_join_error in Ej as ->.
Qed.

Lemma error_text_nonempty e : err_name e <> [] -> error_text e <> [].
Proof.
  unfold error_text. case_bool_decide; [by apply error_to_string_named|done].
Qed.



End ServerFacts.

(** ** The contract of /passage in the specification's terms *)

Module PassageSpec.

(** An ESV reply as the specification describes it: a status, and a
    JSON object with an optional "passages" array of strings and an
    optional "detail" string. *)
Record esv_reply := mk_reply { er_status : Z; er_passages : option (list jstr); er_detail : option jstr }.

Inductive upstream_event :=
| Unreachable (e : js_error)   (** the transport fails *)
| Replied (r : esv_reply)      (** a JSON reply *)
| Unparsable (status : Z).     (** a body that is not JSON *)

(** PassageResult, ValidationError and UpstreamError of the specification. *)
Inductive result :=
| ValidationError
| UpstreamError (msg : jstr)
| PassageResult (query text : jstr).

Definition http_status_text (st : Z) : jstr := ⟪"HTTP "⟫ ++ z_to_dec st.

(** fetchPassage (specification, section 4.2). *)
Definition fetch_passage (q : jstr) (ev : upstream_event) : result :=
  if bool_decide (q = []) then ValidationError
  else match ev with
       | Unreachable e => UpstreamError (err_message e)
       | Unparsable st => if is_ok st then PassageResult q [] else UpstreamError (http_status_text st)
       | Replied r =>
           if is_ok (er_status r) then
             PassageResult q (trim (sep_join [0x0A] (match er_passages r with Some ps => ps | None => [] end)))
           else UpstreamError (match er_detail r with Some d => d | None => http_status_text (er_status r) end)
       end.

(** The response the specification's table gives for a result. *)
Definition render (x : result) : response :=
  match x with
  | ValidationError => mk_response 400 cors_headers (BodyJson missing_q_payload)
  | UpstreamError m => mk_response 500 cors_headers (BodyJson (JObj [(⟪"error"⟫, JStr m)]))
  | PassageResult q t =>
      mk_response 200 cors_headers (BodyJson (JObj [(⟪"query"⟫, JStr q); (⟪"text"⟫, JStr t)]))
  end.

(** The reply as fetch and res.json() deliver it. *)
Definition reply_json (r : esv_reply) : jsval :=
  JObj ((match er_passages r with Some ps => [(⟪"passages"⟫, JArr (map JStr ps))] | None => [] end)
        ++ (match er_detail r with Some d => [(⟪"detail"⟫, JStr d)] | None => [] end)).

Definition event_outcome (ev : upstream_event) : fetch_outcome :=
  match ev with
  | Unreachable e => FetchRejected e
  | Replied r => FetchResolved (mk_fetch_response (er_status r) (Some (reply_json r)))
  | Unparsable st => FetchResolved (mk_fetch_response st None)
  end.

(** Messages are not empty: a transport error says what failed, and the
    detail of an ESV error is a sentence. *)
Lemma reply_passages r :
  read_prop (reply_json r) ⟪"passages"⟫ =
  inr (match er_passages r with Some ps => JArr (map JStr ps) | None => JUndefined end).
Proof. destruct r as [st [ps|] [d|]]; reflexivity. Qed.

Lemma reply_detail r :
  read_prop_opt (reply_json r) ⟪"detail"⟫ =
  match er_detail r with Some d => JStr d | None => JUndefined end.
Proof. destruct r as [st [ps|] [d|]]; reflexivity. Qed.

Definition well_formed (ev : upstream_event) : Prop :=
  match ev with
  | Unreachable e => err_message e <> []
  | Replied r => forall d, er_detail r = Some d -> d <> []
  | Unparsable _ => True
  end.

End PassageSpec.

(** ** Properties of the server *)

Import ServerFacts.

(** [error_text] of an error whose message is not empty is the message;
    leaves that side condition. *)
Ltac error_text_msg :=
  unfold error_text; simpl; first [reflexivity | rewrite bool_decide_false; [reflexivity|]].

(** C2: Refinement: for every upstream reply the specification
    describes, a GET of /passage answers with the rendering of the
    specification's fetchPassage result on the normalized reference: 400
    for a blank reference, 500 with the transport message, the detail or
    "HTTP <status>", and 200 with the query and the trimmed newline-joined
    passages; a reference whose String() throws is answered 500 with the
    thrown error's message. *)
Theorem passage_refines_spec key path q ev :
  route_matches ⟪"/passage"⟫ path = true -> PassageSpec.well_formed ev ->
  snd (run (fun _ => PassageSpec.event_outcome ev) (app key (mk_req ⟪"GET"⟫ path q)))
  = inr (match normalizeReference q with
         | inl e => PassageSpec.render (PassageSpec.UpstreamError (error_text e))
         | inr n => PassageSpec.render (PassageSpec.fetch_passage n ev)
         end).
Proof.
  intros Hp Hwf. destruct (normalizeReference q) as [e|n] eqn:Hn;
    [by rewrite (app_run_passage_throw _ _ _ _ e)|].
  rewrite (app_run_passage _ _ _ _ n) by done.
  unfold passage_direct, PassageSpec.fetch_passage.
  destruct (bool_decide (n = [])); [reflexivity|].
  cbn [snd]. rewrite transmit_get.
  destruct ev as [e|r|st]; cbn [PassageSpec.event_outcome passage_outcome resp_status resp_json PassageSpec.well_formed] in *.
  - simpl. unfold error_text. by rewrite bool_decide_false.
  - destruct (is_ok (PassageSpec.er_status r)); cbn [negb].
    + rewrite PassageSpec.reply_passages. simpl.
      destruct (PassageSpec.er_passages r); simpl; [|done].
      by rewrite array_join_strings.
    + rewrite PassageSpec.reply_detail.
      destruct (PassageSpec.er_detail r) as [d|] eqn:Ed; simpl.
      * unfold js_or. simpl. rewrite bool_decide_false by (by apply Hwf).
        simpl. error_text_msg. by apply Hwf.
      * error_text_msg.
  - destruct (is_ok st); simpl; [done|]. error_text_msg.
Qed.

(** C3: A GET of /passage whose reference normalizes to the empty
    string is answered 400 with the "Missing query param q" error, and no
    outbound request is made. *)
Theorem passage_blank_400 u key path q :
  route_matches ⟪"/passage"⟫ path = true -> normalizeReference q = inr [] ->
  run u (app key (mk_req ⟪"GET"⟫ path q)) =
  ([], inr (mk_response 400 cors_headers (BodyJson missing_q_payload))).
Proof.
  intros Hp Hq. rewrite (app_run_passage _ _ _ _ []) by done. reflexivity.
Qed.

(** C4: When the upstream answers a 2xx whose JSON object has a
    "passages" array (or no truthy "passages"), /passage makes exactly
    the one outbound request and answers 200 with the normalized query
    and the trimmed newline join of the passages, or 500 with the
    TypeError of ToPrimitive when an item of the array is an object with
    its own "toString". *)
Theorem passage_success u key path q n st fs items :
  route_matches ⟪"/passage"⟫ path = true ->
  normalizeReference q = inr n -> n <> [] ->
  u (outbound key n) = FetchResolved (mk_fetch_response st (Some (JObj fs))) ->
  is_ok st = true ->
  js_or (lookup_field ⟪"passages"⟫ fs) (JArr []) = JArr items ->
  run u (app key (mk_req ⟪"GET"⟫ path q)) =
  ([outbound key n],
   inr (match array_join [0x0A] items with
        | inr j => mk_response 200 cors_headers
                     (BodyJson (JObj [(⟪"query"⟫, JStr n); (⟪"text"⟫, JStr (trim j))]))
        | inl _ => mk_response 500 cors_headers
                     (BodyJson (JObj [(⟪"error"⟫, JStr ⟪"Cannot convert object to primitive value"⟫)]))
        end)).
Proof.
  intros Hp Hn Hne Hu Hok Hpass. rewrite (app_run_fetch _ _ _ _ n _ Hp Hn Hne Hu).
  simpl. rewrite Hok. simpl. rewrite Hpass. cbn [call_join].
  destruct (array_join _ _) eqn:Ej; [|done]. by apply array_join_error in Ej as ->.
Qed.

(** C5: When the upstream answers a non-2xx status, /passage answers 500
    with String(detail) when the body's detail is truthy (or "Error" when
    that string is empty, or the TypeError of ToPrimitive when String()
    throws on it), and "HTTP <status>" otherwise. *)
Theorem passage_upstream_error u key path q n st js :
  route_matches ⟪"/passage"⟫ path = true ->
  normalizeReference q = inr n -> n <> [] ->
  u (outbound key n) = FetchResolved (mk_fetch_response st js) ->
  is_ok st = false ->
  let detail := read_prop_opt (match js with Some v => v | None => JObj [] end) ⟪"detail"⟫ in
  snd (run u (app key (mk_req ⟪"GET"⟫ path q))) =
  inr (mk_response 500 cors_headers
         (BodyJson (JObj [(⟪"error"⟫, JStr
            (if truthy detail then
               match to_string detail with
               | inl _ => ⟪"Cannot convert object to primitive value"⟫
               | inr m => if bool_decide (m = []) then ⟪"Error"⟫ else m
               end
             else PassageSpec.http_status_text st))]))).
Proof.
  intros Hp Hn Hne Hu Hok detail. rewrite (app_run_fetch _ _ _ _ n _ Hp Hn Hne Hu).
  simpl. rewrite Hok. simpl. rewrite new_error_spec. fold detail.
  unfold js_or. destruct (truthy detail).
  2:{ rewrite transmit_get. simpl. unfold error_text. simpl. reflexivity. }
  destruct (to_string detail); [reflexivity|].
  rewrite transmit_get. simpl. unfold error_text, error_to_string. cbn [err_name err_message]. by case_bool_decide.
Qed.

(** C16: When fetch rejects (the upstream is unreachable), /passage
    answers 500 with String(e.message || e) of the rejection. *)
Theorem passage_fetch_rejected u key path q n e :
  route_matches ⟪"/passage"⟫ path = true ->
  normalizeReference q = inr n -> n <> [] ->
  u (outbound key n) = FetchRejected e ->
  snd (run u (app key (mk_req ⟪"GET"⟫ path q))) =
  inr (mk_response 500 cors_headers (BodyJson (JObj [(⟪"error"⟫, JStr (error_text e))]))).
Proof.
  intros Hp Hn Hne Hu. by rewrite (app_run_fetch _ _ _ _ n _ Hp Hn Hne Hu).
Qed.

(** C17: A body that is not JSON is read as {}: with a 2xx status the
    text is empty and the status 200, otherwise the error is
    "HTTP <status>". *)
Theorem passage_malformed_json u key path q n st :
  route_matches ⟪"/passage"⟫ path = true ->
  normalizeReference q = inr n -> n <> [] ->
  u (outbound key n) = FetchResolved (mk_fetch_response st None) ->
  snd (run u (app key (mk_req ⟪"GET"⟫ path q))) =
  inr (if is_ok st then
         mk_response 200 cors_headers
           (BodyJson (JObj [(⟪"query"⟫, JStr n); (⟪"text"⟫, JStr [])]))
       else mk_response 500 cors_headers
           (BodyJson (JObj [(⟪"error"⟫, JStr (PassageSpec.http_status_text st))]))).
Proof.
  intros Hp Hn Hne Hu. rewrite (app_run_fetch _ _ _ _ n _ Hp Hn Hne Hu).
  simpl. destruct (is_ok st); simpl; [done|]. error_text_msg.
Qed.

(** C14: A GET of /passage whose query value makes String() throw (an
    object with its own "toString", or an array holding one) is answered
    500 with the message of that TypeError, before any outbound request:
    normalizeReference runs inside the try block. *)
Theorem passage_query_throws u key path q :
  route_matches ⟪"/passage"⟫ path = true ->
  (exists e, to_string (js_or q (JStr [])) = inl e) ->
  run u (app key (mk_req ⟪"GET"⟫ path q)) =
  ([], inr (mk_response 500 cors_headers
              (BodyJson (JObj [(⟪"error"⟫, JStr ⟪"Cannot convert object to primitive value"⟫)])))).
Proof.
  intros Hp [e He]. rewrite (app_run_passage_throw _ _ _ _ e); [|done|].
  - by rewrite (to_string_error _ _ He).
  - unfold normalizeReference. by rewrite He.
Qed.

(** C6: The API key reaches only the Authorization header: when the
    upstream's answer does not depend on that header, the client's
    response is the same whatever the key, and so are the outbound URLs. *)
Theorem key_noninterference u key1 key2 req :
  (forall url a1 a2, u (mk_request url a1) = u (mk_request url a2)) ->
  snd (run u (app key1 req)) = snd (run u (app key2 req))
  /\ map fr_url (fst (run u (app key1 req))) = map fr_url (fst (run u (app key2 req))).
Proof.
  intros Hu. rewrite !app_run. unfold app_direct.
  destruct (bool_decide _); [done|]. destruct (_ && _); [done|].
  destruct (_ && _); [|done]. unfold passage_start, passage_direct.
  destruct (normalizeReference _); [done|].
  destruct (bool_decide _); [done|]. unfold outbound. simpl.
  by rewrite (Hu _ (⟪"Token "⟫ ++ key1) (⟪"Token "⟫ ++ key2)).
Qed.

(** C7: Every request is answered (no error escapes the handlers) and
    every response carries exactly the three CORS headers of the
    middleware. *)
Theorem every_response_cors u key req :
  exists resp, snd (run u (app key req)) = inr resp /\ headers resp = cors_headers.
Proof.
  rewrite app_run. pose proof (app_direct_headers u key req) as H.
  destruct (app_direct u key req) as [t r]. simpl in *. by eexists.
Qed.

(** C12: A request makes at most one outbound request: none, or, for a
    GET or HEAD of /passage whose reference normalizes to a non-blank
    [n], exactly the request for [n]'s URL with the header
    "Token <key>". *)
Theorem app_outbound_calls u key req :
  fst (run u (app key req)) = []
  \/ exists n, normalizeReference (req_query_q req) = inr n
      /\ fst (run u (app key req)) = [mk_request (passage_url n) (⟪"Token "⟫ ++ key)]
      /\ n <> [] /\ get_like (req_method req) = true
      /\ route_matches ⟪"/passage"⟫ (req_path req) = true.
Proof.
  rewrite app_run. unfold app_direct.
  destruct (bool_decide _); [by left|]. destruct (_ && _); [by left|].
  destruct (get_like _) eqn:Eg, (route_matches ⟪"/passage"⟫ _) eqn:Er; simpl; try by left.
  unfold passage_start, passage_direct.
  destruct (normalizeReference _) as [e|n]; [by left|].
  case_bool_decide; [by left|]. right. by exists n.
Qed.

(** C11: A 500 response always carries a non-empty error message, when
    the errors fetch rejects with have a name (as TypeError and
    DOMException do). *)
Theorem error_message_nonempty u key req t resp :
  (forall r e, u r = FetchRejected e -> err_name e <> []) ->
  req_method req <> ⟪"HEAD"⟫ ->
  run u (app key req) = (t, inr resp) -> status resp = 500 ->
  exists m, body_of resp = BodyJson (JObj [(⟪"error"⟫, JStr m)]) /\ m <> [].
Proof.
  intros Hu Hh Hrun Hs. rewrite app_run in Hrun.
  unfold app_direct in Hrun.
  destruct (bool_decide _); [injection Hrun as _ <-; done|].
  destruct (_ && _); [injection Hrun as _ <-; done|].
  destruct (_ && _); [|injection Hrun as _ <-; done].
  unfold passage_start, passage_direct in Hrun.
  destruct (normalizeReference _) as [e|n] eqn:Hq; [injection Hrun as _ <-|].
  { unfold transmit. simpl. rewrite bool_decide_false by done. eexists; split; [done|].
    apply error_text_nonempty. by rewrite (normalize_error _ _ Hq). }
  destruct (bool_decide _); [injection Hrun as _ <-; done|].
  destruct (passage_outcome _) as [e|x] eqn:Eo; injection Hrun as _ <-; [|done].
  unfold transmit. simpl. rewrite bool_decide_false by done. eexists; split; [done|].
  apply error_text_nonempty.
  destruct (passage_outcome_error _ _ Eo) as [He|He]; [|done]. by eapply Hu.
Qed.

(** C20: A GET of /healthz answers 200 "ok" without any outbound
    request, whatever the upstream does. *)
Theorem healthz_ok u key path q :
  route_matches ⟪"/healthz"⟫ path = true ->
  run u (app key (mk_req ⟪"GET"⟫ path q)) = ([], inr (mk_response 200 cors_headers (BodyText ⟪"ok"⟫))).
Proof.
  intros Hp. rewrite app_run. unfold app_direct. cbn [req_method req_path].
  rewrite get_not_options, get_like_get, Hp. simpl. by rewrite transmit_get.
Qed.

(** C21: An OPTIONS request to any path is answered 204 with no body and
    the CORS headers, without any outbound request. *)
Theorem options_204 u key path q :
  run u (app key (mk_req ⟪"OPTIONS"⟫ path q)) = ([], inr (mk_response 204 cors_headers BodyEmpty)).
Proof. rewrite app_run. reflexivity. Qed.

(** C23: A request that is neither OPTIONS nor a GET or HEAD of one of
    the two routes gets Express's 404, without any outbound request. *)
Theorem not_found_404 u key req :
  req_method req <> ⟪"OPTIONS"⟫ ->
  get_like (req_method req) && (route_matches ⟪"/healthz"⟫ (req_path req)
                                || route_matches ⟪"/passage"⟫ (req_path req)) = false ->
  exists b, run u (app key req) = ([], inr (mk_response 404 cors_headers b)).
Proof.
  intros Ho Hr. rewrite app_run. unfold app_direct. rewrite bool_decide_false by done.
  destruct (get_like _); simpl in Hr; [|by eexists].
  apply orb_false_iff in Hr as [-> ->]. by eexists.
Qed.

(** C22: Every response status is one of 200, 204, 400, 404 and 500. *)
Theorem status_codes u key req resp :
  snd (run u (app key req)) = inr resp -> status resp ∈ [200; 204; 400; 404; 500].
Proof.
  rewrite app_run. unfold app_direct.
  destruct (bool_decide _); [intros [= <-]; set_solver|].
  destruct (_ && _); [intros [= <-]; set_solver|].
  destruct (_ && _); [|intros [= <-]; set_solver].
  unfold passage_start, passage_direct. destruct (normalizeReference _); [intros [= <-]; set_solver|].
  destruct (bool_decide _); [intros [= <-]; set_solver|].
  destruct (passage_outcome _); intros [= <-]; set_solver.
Qed.

(** C24: A HEAD request is answered like the GET of the same path, with
    the same status, headers and outbound requests, and no body. *)
Theorem head_like_get u key path q :
  run u (app key (mk_req ⟪"HEAD"⟫ path q)) =
  let '(t, x) := run u (app key (mk_req ⟪"GET"⟫ path q)) in
  (t, match x with inl e => inl e | inr r => inr (mk_response (status r) (headers r) BodyEmpty) end).
Proof.
  rewrite !app_run. unfold app_direct. cbn [req_method req_path req_query_q].
  rewrite head_not_options, get_not_options, get_like_head, get_like_get.
  destruct (route_matches ⟪"/healthz"⟫ path), (route_matches ⟪"/passage"⟫ path); simpl;
    try reflexivity; destruct (passage_start _ _ _ _); reflexivity.
Qed.

(** C18: A 2xx reply whose body is the JSON literal null is not treated
    as a missing "passages" field: payload.passages throws a TypeError
    and /passage answers 500. *)
Theorem passage_null_payload u key path q n st :
  route_matches ⟪"/passage"⟫ path = true ->
  normalizeReference q = inr n -> n <> [] ->
  u (outbound key n) = FetchResolved (mk_fetch_response st (Some JNull)) ->
  is_ok st = true ->
  snd (run u (app key (mk_req ⟪"GET"⟫ path q))) =
  inr (mk_response 500 cors_headers
         (BodyJson (JObj [(⟪"error"⟫, JStr ⟪"Cannot read properties of null (reading 'passages')"⟫)]))).
Proof.
  intros Hp Hn Hne Hu Hok. rewrite (app_run_fetch _ _ _ _ n _ Hp Hn Hne Hu).
  simpl. rewrite Hok. reflexivity.
Qed.

(** C19: A 2xx reply whose "passages" is truthy but not an array (a
    string, a number, an object) makes .join throw a TypeError, and
    /passage answers 500. *)
Theorem passage_non_array_passages u key path q n st fs :
  route_matches ⟪"/passage"⟫ path = true ->
  normalizeReference q = inr n -> n <> [] ->
  u (outbound key n) = FetchResolved (mk_fetch_response st (Some (JObj fs))) ->
  is_ok st = true ->
  (forall items, js_or (lookup_field ⟪"passages"⟫ fs) (JArr []) <> JArr items) ->
  snd (run u (app key (mk_req ⟪"GET"⟫ path q))) =
  inr (mk_response 500 cors_headers
         (BodyJson (JObj [(⟪"error"⟫, JStr ⟪"(payload.passages || []).join is not a function"⟫)]))).
Proof.
  intros Hp Hn Hne Hu Hok Hna. rewrite (app_run_fetch _ _ _ _ n _ Hp Hn Hne Hu).
  simpl. rewrite Hok. simpl.
  destruct (js_or (lookup_field ⟪"passages"⟫ fs) (JArr [])) eqn:E; try reflexivity.
  exfalso. by eapply Hna.
Qed.

(** C25: Without a truthy ESV_API_KEY (absent or empty) the process
    exits with status 1 and serves no request. *)
Theorem startup_requires_key env :
  env !! ⟪"ESV_API_KEY"⟫ = None \/ env !! ⟪"ESV_API_KEY"⟫ = Some [] ->
  startup env = Exited 1 /\ forall u req, serve env u req = None.
Proof.
  unfold serve, startup, env_get. intros [-> | ->]; done.
Qed.

(** C26: With a non-empty ESV_API_KEY the process listens with that key,
    on PORT when it is set to a non-empty string and on 3000 otherwise. *)
Theorem startup_config env k :
  env !! ⟪"ESV_API_KEY"⟫ = Some k -> k <> [] ->
  startup env =
  Listening (mk_config k (match env !! ⟪"PORT"⟫ with
                          | Some p => if bool_decide (p = []) then JNum ⟪"3000"⟫ else JStr p
                          | None => JNum ⟪"3000"⟫
                          end)).
Proof.
  intros Hk Hne. unfold startup, env_get. rewrite Hk. simpl.
  rewrite bool_decide_false by done. simpl.
  destruct (env !! ⟪"PORT"⟫) as [p|]; [|done].
  unfold js_or. simpl. by case_bool_decide.
Qed.



(** ** Witnesses: the properties at concrete requests and upstreams *)

Module Witnesses.
Definition ref316 : jsval := JStr ⟪" John   3:16 "⟫.
Definition n316 : jstr := ⟪"John 3:16"⟫.
Definition key0 : jstr := ⟪"k3y"⟫.
(** A query value that is an object with its own "toString". *)
Definition q_obj : jsval := JObj [(⟪"toString"⟫, JStr ⟪"x"⟫)].

(** The specification's examples of upstream replies. *)
Definition up_ok : upstream := fun _ =>
  FetchResolved (mk_fetch_response 200 (Some (JObj [(⟪"passages"⟫, JArr [JStr ⟪"John 3:16 ... [1]"⟫])]))).
Definition up_404_empty_detail : upstream := fun _ =>
  FetchResolved (mk_fetch_response 404 (Some (JObj [(⟪"detail"⟫, JArr [])]))).
Definition up_down : upstream := fun _ => FetchRejected (type_error ⟪"fetch failed"⟫).
Definition up_html : upstream := fun _ => FetchResolved (mk_fetch_response 502 None).
Definition up_null : upstream := fun _ => FetchResolved (mk_fetch_response 200 (Some JNull)).
Definition up_str : upstream := fun _ =>
  FetchResolved (mk_fetch_response 200 (Some (JObj [(⟪"passages"⟫, JStr ⟪"x"⟫)]))).
Definition env_ok : gmap jstr jstr := <[⟪"ESV_API_KEY"⟫ := key0]> ∅.
End Witnesses.
Import Witnesses.

Lemma passage_refines_spec_witness :
  snd (run (fun _ => PassageSpec.event_outcome
                       (PassageSpec.Replied (PassageSpec.mk_reply 404 None (Some ⟪"not found"⟫))))
           (app key0 (mk_req ⟪"GET"⟫ ⟪"/passage"⟫ ref316)))
  = inr (PassageSpec.render (PassageSpec.UpstreamError ⟪"not found"⟫)).
Proof.
  etransitivity; [apply passage_refines_spec; [reflexivity|]|reflexivity].
  simpl. intros d [= <-]. discriminate.
Defined.

Lemma passage_blank_400_witness :
  run up_ok (app key0 (mk_req ⟪"GET"⟫ ⟪"/Passage/"⟫ (JStr ⟪"  "⟫))) =
  ([], inr (mk_response 400 cors_headers (BodyJson missing_q_payload))).
Proof. apply passage_blank_400; vm_compute; reflexivity. Defined.

Lemma passage_success_witness :
  run up_ok (app key0 (mk_req ⟪"GET"⟫ ⟪"/passage"⟫ ref316)) =
  ([outbound key0 n316],
   inr (mk_response 200 cors_headers
          (BodyJson (JObj [(⟪"query"⟫, JStr n316); (⟪"text"⟫, JStr ⟪"John 3:16 ... [1]"⟫)])))).
Proof.
  etransitivity; [apply (passage_success up_ok key0 _ _ n316 200
                            [(⟪"passages"⟫, JArr [JStr ⟪"John 3:16 ... [1]"⟫])]
                            [JStr ⟪"John 3:16 ... [1]"⟫])|vm_compute; reflexivity];
    try reflexivity.
  vm_compute. discriminate.
Defined.

Lemma passage_upstream_error_witness :
  snd (run up_404_empty_detail (app key0 (mk_req ⟪"GET"⟫ ⟪"/passage"⟫ ref316))) =
  inr (mk_response 500 cors_headers (BodyJson (JObj [(⟪"error"⟫, JStr ⟪"Error"⟫)]))).
Proof.
  apply (passage_upstream_error up_404_empty_detail key0 _ _ n316 404 (Some (JObj [(⟪"detail"⟫, JArr [])])));
    try reflexivity. vm_compute. discriminate.
Defined.

Lemma passage_query_throws_witness :
  run up_ok (app key0 (mk_req ⟪"GET"⟫ ⟪"/passage"⟫ q_obj)) =
  ([], inr (mk_response 500 cors_headers
              (BodyJson (JObj [(⟪"error"⟫, JStr ⟪"Cannot convert object to primitive value"⟫)])))).
Proof. apply passage_query_throws; [reflexivity|]. by eexists. Defined.

Lemma key_noninterference_witness :
  snd (run up_ok (app ⟪"a"⟫ (mk_req ⟪"GET"⟫ ⟪"/passage"⟫ ref316)))
  = snd (run up_ok (app ⟪"b"⟫ (mk_req ⟪"GET"⟫ ⟪"/passage"⟫ ref316)))
  /\ map fr_url (fst (run up_ok (app ⟪"a"⟫ (mk_req ⟪"GET"⟫ ⟪"/passage"⟫ ref316))))
     = map fr_url (fst (run up_ok (app ⟪"b"⟫ (mk_req ⟪"GET"⟫ ⟪"/passage"⟫ ref316)))).
Proof. apply key_noninterference. reflexivity. Defined.

Lemma error_message_nonempty_witness :
  exists m, body_of (mk_response 500 cors_headers
                       (BodyJson (JObj [(⟪"error"⟫, JStr ⟪"fetch failed"⟫)])))
            = BodyJson (JObj [(⟪"error"⟫, JStr m)]) /\ m <> [].
Proof.
  apply (error_message_nonempty up_down key0 (mk_req ⟪"GET"⟫ ⟪"/passage"⟫ ref316)
           [outbound key0 n316]).
  - intros r e [= <-]. discriminate.
  - discriminate.
  - vm_compute. reflexivity.
  - reflexivity.
Defined.

Lemma passage_fetch_rejected_witness :
  snd (run up_down (app key0 (mk_req ⟪"GET"⟫ ⟪"/passage"⟫ ref316))) =
  inr (mk_response 500 cors_headers (BodyJson (JObj [(⟪"error"⟫, JStr (error_text (type_error ⟪"fetch failed"⟫)))]))).
Proof. apply (passage_fetch_rejected _ _ _ _ n316); try reflexivity. vm_compute. discriminate. Defined.

Lemma passage_malformed_json_witness :
  snd (run up_html (app key0 (mk_req ⟪"GET"⟫ ⟪"/passage"⟫ ref316))) =
  inr (if is_ok 502 then
         mk_response 200 cors_headers
           (BodyJson (JObj [(⟪"query"⟫, JStr n316); (⟪"text"⟫, JStr [])]))
       else mk_response 500 cors_headers
           (BodyJson (JObj [(⟪"error"⟫, JStr (PassageSpec.http_status_text 502))]))).
Proof. apply (passage_malformed_json _ _ _ _ n316); try reflexivity. vm_compute. discriminate. Defined.

Lemma passage_null_payload_witness :
  snd (run up_null (app key0 (mk_req ⟪"GET"⟫ ⟪"/passage"⟫ ref316))) =
  inr (mk_response 500 cors_headers
         (BodyJson (JObj [(⟪"error"⟫, JStr ⟪"Cannot read properties of null (reading 'passages')"⟫)]))).
Proof. apply (passage_null_payload _ _ _ _ n316 200); try reflexivity. vm_compute. discriminate. Defined.

Lemma passage_non_array_passages_witness :
  snd (run up_str (app key0 (mk_req ⟪"GET"⟫ ⟪"/passage"⟫ ref316))) =
  inr (mk_response 500 cors_headers
         (BodyJson (JObj [(⟪"error"⟫, JStr ⟪"(payload.passages || []).join is not a function"⟫)]))).
Proof.
  apply (passage_non_array_passages _ _ _ _ n316 200 [(⟪"passages"⟫, JStr ⟪"x"⟫)]); try reflexivity.
  - vm_compute. discriminate.
  - intros items. vm_compute. discriminate.
Defined.

Lemma healthz_ok_witness :
  run up_down (app key0 (mk_req ⟪"GET"⟫ ⟪"/HEALTHZ/"⟫ JUndefined)) =
  ([], inr (mk_response 200 cors_headers (BodyText ⟪"ok"⟫))).
Proof. apply healthz_ok. reflexivity. Defined.

Lemma not_found_404_witness :
  exists b, run up_ok (app key0 (mk_req ⟪"POST"⟫ ⟪"/passage"⟫ ref316)) =
            ([], inr (mk_response 404 cors_headers b)).
Proof. apply not_found_404; [discriminate|reflexivity]. Defined.

Lemma status_codes_witness :
  status (mk_response 500 cors_headers
            (BodyJson (JObj [(⟪"error"⟫, JStr ⟪"Cannot read properties of null (reading 'passages')"⟫)])))
  ∈ [200; 204; 400; 404; 500].
Proof.
  apply (status_codes up_null key0 (mk_req ⟪"GET"⟫ ⟪"/passage"⟫ ref316)).
  vm_compute. reflexivity.
Defined.

Lemma startup_requires_key_witness :
  startup ∅ = Exited 1 /\ forall u req, serve ∅ u req = None.
Proof. apply startup_requires_key. left. reflexivity. Defined.

Lemma startup_config_witness : startup env_ok = Listening (mk_config key0 (JNum ⟪"3000"⟫)).
Proof. apply (startup_config env_ok key0); [reflexivity|discriminate]. Defined.


