(* ===== verification/Process.v ===== *)
(** * Process: the module's top level, Express's router and the served requests

    src/server.js is an ES module whose top level runs once, in order:
    it creates the application (line 3), registers the CORS middleware
    (line 6), reads ESV_API_KEY and exits when it is missing (lines
    15-19), registers the two GET routes (lines 42 and 44), reads PORT
    and listens (lines 69-70).  Express keeps the registered layers in a
    stack and handles each request by walking it in registration order:
    a middleware ends the request or passes it on with next(), a route
    layer answers when its method and path match, and finalhandler
    answers 404 when the stack is exhausted.

    [module_init] is that top level, with the lines it logs
    (console.error before exit(1), console.log in the listen callback),
    [dispatch] the router walk and
    [handle] the request callback Node's HTTP server invokes.  The
    lemmas show that the stack the top level builds is the one
    [Server.app] walks and that the top level agrees with
    [Server.startup]; the theorem shows that the log does not depend on
    the API key. *)

From stdpp Require Import gmap.
From S2P Require Import Prelude JsString JsValue Async Server.

Open Scope Z_scope.

(** ** Express's router *)

(** A layer of the router stack: app.use(fn) or app.get(path, fn). *)
Inductive layer :=
| LUse (mw : request -> res_state -> mw_result)
| LGet (path : jstr) (h : request -> res_state -> async res_state).

(** Router.handle: the layers in registration order, then finalhandler. *)
Fixpoint dispatch (stack : list layer) (req : request) (r : res_state) : async res_state :=
  match stack with
  | [] => Done (not_found req r)
  | LUse mw :: rest =>
      match mw req r with
      | MwEnded r' => Done r'
      | MwNext r' => dispatch rest req r'
      end
  | LGet path h :: rest =>
      if get_like (req_method req) && route_matches path (req_path req) then h req r
      else dispatch rest req r
  end.

(** The request listener: a fresh response, the router, then what goes
    on the wire once the handler has finished. *)
Definition handle (stack : list layer) (req : request) : async response :=
  r ← dispatch stack req fresh_res; Done (transmit req r).

(** ** The module's top level (lines 3-72) *)

Inductive proc :=
| ProcExited (code : Z)
| ProcListening (stack : list layer) (port : jsval).

(** What the process writes: console.error goes to stderr, console.log
    to stdout. *)
Inductive stream := Stdout | Stderr.

Record log_line := mk_log { log_stream : stream; log_text : jstr }.

(** The top level: the lines it logs and the state it leaves the process
    in.  The listen callback logs once the port is bound. *)
Definition module_init (env : gmap jstr jstr) : list log_line * proc :=
  let stack := [] in                                               (* const app = express() *)
  let stack := stack ++ [LUse cors_middleware] in                  (* app.use(...) *)
  let key := env_get env ⟪"ESV_API_KEY"⟫ in
  if negb (truthy key) then
    ([mk_log Stderr ⟪"Missing ESV_API_KEY env var."⟫], ProcExited 1)
  else
    let stack := stack ++ [LGet ⟪"/healthz"⟫ (fun _ r => healthz_handler r)] in
    let stack := stack ++ [LGet ⟪"/passage"⟫ (passage_handler (prim_string key))] in
    let port := js_or (env_get env ⟪"PORT"⟫) (JNum ⟪"3000"⟫) in
    ([mk_log Stdout (⟪"ESV proxy running on port "⟫ ++ prim_string port)],
     ProcListening stack port).

(** The requests a process serves, each with its outbound requests and
    its response; the module keeps no state between requests. *)
Definition proc_serve (u : upstream) (p : proc) (reqs : list request)
  : list (list fetch_request * (js_error + response)) :=
  match p with
  | ProcExited _ => []
  | ProcListening stack _ => map (fun req => run u (handle stack req)) reqs
  end.

(** ** Facts *)

Module ProcessFacts.

(** The stack of a listening process and its configuration. *)
Lemma module_init_listening env stack port :
  (module_init env).2 = ProcListening stack port ->
  exists k, startup env = Listening (mk_config k port)
    /\ stack = [LUse cors_middleware; LGet ⟪"/healthz"⟫ (fun _ r => healthz_handler r);
               LGet ⟪"/passage"⟫ (passage_handler k)].
Proof.
  unfold module_init, startup. destruct (truthy _); simpl; [|done].
  intros H. injection H as <- <-. by eexists.
Qed.

(** The router walking that stack is [Server.app]. *)
Lemma handle_app k req :
  handle [LUse cors_middleware; LGet ⟪"/healthz"⟫ (fun _ r => healthz_handler r);
          LGet ⟪"/passage"⟫ (passage_handler k)] req = app k req.
Proof.
  unfold handle, app. cbn [dispatch].
  destruct (cors_middleware req fresh_res) as [r|r]; [reflexivity|].
  destruct (_ && route_matches ⟪"/healthz"⟫ _); [reflexivity|].
  by destruct (_ && route_matches ⟪"/passage"⟫ _).
Qed.

End ProcessFacts.

(** ** Properties of the process *)

Import ProcessFacts.

(** C15: The API key never reaches the log: two processes started with
    different (non-empty) ESV_API_KEY values and otherwise the same
    environment write exactly the same lines, the listening message with
    the port. *)
Theorem log_key_noninterference env k1 k2 :
  k1 <> [] -> k2 <> [] ->
  (module_init (<[⟪"ESV_API_KEY"⟫ := k1]> env)).1 = (module_init (<[⟪"ESV_API_KEY"⟫ := k2]> env)).1.
Proof.
  intros H1 H2. unfold module_init, env_get. rewrite !lookup_insert_eq. cbn [truthy].
  rewrite !bool_decide_false by done. simpl.
  by rewrite !lookup_insert_ne by discriminate.
Qed.

Lemma log_key_noninterference_witness :
  (module_init (<[⟪"ESV_API_KEY"⟫ := ⟪"k3y"⟫]> (<[⟪"PORT"⟫ := ⟪"8080"⟫]> ∅))).1
  = (module_init (<[⟪"ESV_API_KEY"⟫ := ⟪"other"⟫]> (<[⟪"PORT"⟫ := ⟪"8080"⟫]> ∅))).1.
Proof. apply log_key_noninterference; discriminate. Defined.
