(* ===== verification/Api.v ===== *)
(** * Api: the types of the JSON the server sends

    The specification fixes the shapes of the bodies: /passage answers
    {query, text} with two strings (PassageResult) or {error} with a
    string, /healthz the text "ok", OPTIONS nothing, and unknown routes
    Express's 404 page.  This file gives JSON types [jtype], the typing
    judgment [has_type] as an inductive relation with a checker
    [type_check] that decides it, and the judgment [resp_typed] on
    whole responses.  The theorem [app_typed] shows that every response
    of [Server.app] is typed, whatever the request, the query value and
    the upstream reply. *)

From S2P Require Import Prelude JsString JsValue Normalize Async FormUrl Server.

Open Scope Z_scope.
Local Set Warnings "-register-all".

(** ** JSON types and the typing judgment *)

(** String, array of a type, and object with exactly the listed fields in
    that order (the order JSON.stringify prints them in). *)
Inductive jtype :=
| TStr
| TArr (t : jtype)
| TObj (fields : list (jstr * jtype)).

Inductive has_type : jsval -> jtype -> Prop :=
| HtStr s : has_type (JStr s) TStr
| HtArr items t : Forall (fun x => has_type x t) items -> has_type (JArr items) (TArr t)
| HtObj fs ts :
    Forall2 (fun f ft => f.1 = ft.1 /\ has_type f.2 ft.2) fs ts -> has_type (JObj fs) (TObj ts).

(** The fields of an object against the fields of its type. *)
Fixpoint fields_ok (chk : jsval -> jtype -> bool)
    (fs : list (jstr * jsval)) (ts : list (jstr * jtype)) : bool :=
  match fs, ts with
  | [], [] => true
  | (k, x) :: fs', (k', t) :: ts' => bool_decide (k = k') && chk x t && fields_ok chk fs' ts'
  | _, _ => false
  end.

Fixpoint type_check (v : jsval) (t : jtype) : bool :=
  match v, t with
  | JStr _, TStr => true
  | JArr items, TArr t' => forallb (fun x => type_check x t') items
  | JObj fs, TObj ts => fields_ok type_check fs ts
  | _, _ => false
  end.

(** The bodies of the specification. *)
Definition passage_t : jtype := TObj [(⟪"query"⟫, TStr); (⟪"text"⟫, TStr)].
Definition error_t : jtype := TObj [(⟪"error"⟫, TStr)].

(** A response as the API promises it: the JSON body types with their
    statuses, the health text, the empty bodies of 204 and HEAD, and the
    404 page. *)
Inductive resp_typed : response -> Prop :=
| RtPassage hs v : has_type v passage_t -> resp_typed (mk_response 200 hs (BodyJson v))
| RtError st hs v :
    st = 400 \/ st = 500 -> has_type v error_t -> resp_typed (mk_response st hs (BodyJson v))
| RtHealth hs : resp_typed (mk_response 200 hs (BodyText ⟪"ok"⟫))
| RtEmpty st hs : st = 200 \/ st = 204 \/ st = 400 \/ st = 404 \/ st = 500 ->
    resp_typed (mk_response st hs BodyEmpty)
| RtNotFound hs m p : resp_typed (mk_response 404 hs (BodyNotFound m p)).

(** ** The checker decides the judgment *)

Module TypingFacts.

Lemma forallb_iff {A} (f : A -> bool) (P : A -> Prop) l :
  Forall (fun x => f x = true <-> P x) l -> (forallb f l = true <-> Forall P l).
Proof.
  induction 1 as [|x l Hx _ IH]; simpl; [split; constructor|].
  rewrite andb_true_iff, Forall_cons, Hx, IH. done.
Qed.

Lemma fields_ok_iff chk fs :
  Forall (fun f => forall t, chk f.2 t = true <-> has_type f.2 t) fs ->
  forall ts, fields_ok chk fs ts = true <-> Forall2 (fun f ft => f.1 = ft.1 /\ has_type f.2 ft.2) fs ts.
Proof.
  induction 1 as [|[k x] fs Hx _ IH]; intros [|[k' t] ts]; simpl.
  - split; [constructor|done].
  - split; [done|inversion 1].
  - split; [done|inversion 1].
  - rewrite !andb_true_iff, bool_decide_eq_true, Hx, IH, Forall2_cons. simpl. tauto.
Qed.

Lemma type_check_spec v t : type_check v t = true <-> has_type v t.
Proof.
  revert t. induction v as [| |b|r|s|items IH|fs IH] using jsval_ind'; intros [|t|ts]; simpl;
    split; intros H; inversion H; subst; try done; try constructor.
  - apply (forallb_iff _ (fun x => has_type x t)) in H; [done|].
    eapply Forall_impl; [exact IH|]. intros x Hx. apply Hx.
  - apply (forallb_iff _ (fun x => has_type x t)); [|done].
    eapply Forall_impl; [exact IH|]. intros x Hx. apply Hx.
  - by apply (fields_ok_iff type_check fs IH ts).
  - by apply (fields_ok_iff type_check fs IH ts).
Qed.
End TypingFacts.

#[export] Instance has_type_dec v t : Decision (has_type v t).
Proof.
  destruct (type_check v t) eqn:E; [left; by apply TypingFacts.type_check_spec|].
  right. intros H%TypingFacts.type_check_spec. congruence.
Defined.

(** ** Typed responses *)

Module ResponseFacts.

(** Every typed response has one of the app's statuses. *)
Lemma resp_typed_status resp :
  resp_typed resp ->
  status resp = 200 \/ status resp = 204 \/ status resp = 400 \/ status resp = 404 \/ status resp = 500.
Proof. inversion 1; simpl; lia. Qed.

(** Dropping the body for HEAD keeps a response typed. *)
Lemma transmit_typed req r b :
  res_body r = Some b -> resp_typed (mk_response (res_status r) (res_headers r) b) ->
  resp_typed (transmit req r).
Proof.
  intros Hb Ht. unfold transmit. rewrite Hb.
  case_bool_decide; [|done]. constructor. by apply resp_typed_status in Ht.
Qed.

Lemma error_body_typed m : has_type (JObj [(⟪"error"⟫, JStr m)]) error_t.
Proof. repeat constructor. Qed.

Lemma passage_body_typed q t :
  has_type (JObj [(⟪"query"⟫, JStr q); (⟪"text"⟫, JStr t)]) passage_t.
Proof. repeat constructor. Qed.

#[export] Hint Resolve error_body_typed passage_body_typed : esv.

(** The response object /passage leaves, before transmission. *)
Lemma passage_direct_typed u key q :
  exists b, res_body (passage_direct u key q cors_res).2 = Some b
    /\ resp_typed (mk_response (res_status (passage_direct u key q cors_res).2) cors_headers b).
Proof.
  unfold passage_direct. case_bool_decide; simpl.
  - eexists; split; [done|]. constructor; [auto|unfold missing_q_payload; auto with esv].
  - destruct (passage_outcome _); simpl; eexists; (split; [done|]); constructor; auto with esv.
Qed.
Lemma passage_start_typed u key qn :
  exists b, res_body (passage_start u key qn cors_res).2 = Some b
    /\ resp_typed (mk_response (res_status (passage_start u key qn cors_res).2) cors_headers b).
Proof.
  destruct qn as [e|q]; [|apply passage_direct_typed].
  eexists; split; [done|]. constructor; auto with esv.
Qed.
End ResponseFacts.

Import ResponseFacts.

(** C13: Every response of the app has the type the API promises: /passage
    answers a 200 {query, text} object of two strings or a 400 or 500
    {error} object with a string, /healthz the text "ok", OPTIONS and HEAD
    an empty body, other routes Express's 404 page, for every request,
    query value and upstream reply. *)
Theorem app_typed u key req :
  exists resp, snd (run u (app key req)) = inr resp /\ resp_typed resp.
Proof.
  rewrite app_run. unfold app_direct.
  case_bool_decide; [|destruct (_ && _); [|destruct (_ && _)]]; simpl.
  - eexists; split; [done|]. eapply transmit_typed; [reflexivity|]. simpl. constructor. lia.
  - eexists; split; [done|]. eapply transmit_typed; [reflexivity|]. simpl. constructor.
  - destruct (passage_start_typed u key (normalizeReference (req_query_q req))) as (b & Hb & Ht).
    pose proof (ServerFacts.passage_start_headers u key (normalizeReference (req_query_q req))) as Hh.
    destruct (passage_start _ _ _ _) as [t r]. simpl in *.
    eexists; split; [done|]. eapply transmit_typed; [exact Hb|]. by rewrite Hh.
  - eexists; split; [done|]. eapply transmit_typed; [reflexivity|]. simpl. constructor.
Qed.
